(** * GearmanWorker (gearman/worker.py): a shallow embedding

    The worker object of python-gearman is embedded as a record of its
    attributes, every method as a state-passing function that may raise.
    Calls made on collaborators that live outside worker.py (command
    handlers, connection objects) are recorded, in order, in a call log. *)

From stdpp Require Import gmap strings list fin_maps.

Open Scope string_scope.
Open Scope list_scope.

(** ** Objects and values *)

(** Handler and connection objects are compared by identity in the source
    (dictionary keys, [==], [!=]); an object is modelled by its identity. *)
Abbreviation Handler := positive (only parsing).
Abbreviation Connection := positive (only parsing).

(** [self.job_class(current_connection, job_handle, task, unique, data)] *)
Record Job := mkJob {
  conn : Connection;
  job_handle : string;
  task : string;
  unique : string;
  data : string
}.

(** Keys of the two dictionaries that are subscripted with [d[k]]. *)
Inductive PyKey :=
| KeyTask (t : string)
| KeyConn (c : Connection).

(** Python exceptions, as far as worker.py can tell them apart: the ones the
    interpreter raises itself ([KeyError] from [d[k]], [NameError] from an
    unbound name), and what a task callback raises, either an instance of
    [Exception] or one of the classes that derive from [BaseException] only
    ([KeyboardInterrupt], [SystemExit], [GeneratorExit]). *)
Inductive PyExc :=
| KeyError (k : PyKey)
| NameError (name : string)
| ExceptionInstance (cls : string)
| BaseExceptionOnly (cls : string).

(** [isinstance(e, Exception)], the test made by [except Exception:]. *)
Definition isinstance_Exception (e : PyExc) : bool :=
  match e with
  | BaseExceptionOnly _ => false
  | _ => true
  end.

Inductive result (A : Type) :=
| Ok (a : A)
| Raise (e : PyExc).
Arguments Ok {A} a.
Arguments Raise {A} e.

(** A task callback is a callable object, kept in the ability table by
    reference and modelled by its identity.  What calling it does is not
    fixed by worker.py: it is a parameter of the dispatch below. *)
Abbreviation Callback := positive (only parsing).

(** Calls on objects defined outside worker.py, named as in the source. *)
Inductive Call :=
| handler_set_abilities (h : Handler) (abilities : list string)
| handler_set_client_id (h : Handler) (client_id : option string)
| handler_send_job_status (h : Handler) (j : Job) (numerator denominator : Z)
| handler_send_job_complete (h : Handler) (j : Job) (d : string)
| handler_send_job_failure (h : Handler) (j : Job)
| handler_send_job_exception (h : Handler) (j : Job) (d : string)
| handler_send_job_data (h : Handler) (j : Job) (d : string)
| handler_send_job_warning (h : Handler) (j : Job) (d : string)
| connection_close (c : Connection).

(** [self.handler_initial_state], the two entries worker.py writes. *)
Record InitialState := mkInitialState {
  abilities : list string;
  client_id : option string
}.

Record GearmanWorker := mkWorker {
  connection_list : list Connection;
  handler_to_connection_map : gmap Handler Connection;
  connection_to_handler_map : gmap Connection Handler;
  handler_initial_state : InitialState;
  randomized_connections : option (list Connection);
  worker_abilities : gmap string Callback;
  worker_client_id : option string;
  command_handler_holding_job_lock : option Handler;
  (** liveness flag of each connection object, [is_connected()] *)
  connected : gset Connection;
  (** calls made so far on handlers and connections, oldest first *)
  calls : list Call
}.

Definition with_handler_initial_state (s : InitialState) (w : GearmanWorker) :=
  mkWorker (connection_list w) (handler_to_connection_map w)
    (connection_to_handler_map w) s (randomized_connections w)
    (worker_abilities w) (worker_client_id w)
    (command_handler_holding_job_lock w) (connected w) (calls w).

Definition with_randomized_connections (l : option (list Connection))
    (w : GearmanWorker) :=
  mkWorker (connection_list w) (handler_to_connection_map w)
    (connection_to_handler_map w) (handler_initial_state w) l
    (worker_abilities w) (worker_client_id w)
    (command_handler_holding_job_lock w) (connected w) (calls w).

Definition with_worker_abilities (m : gmap string Callback)
    (w : GearmanWorker) :=
  mkWorker (connection_list w) (handler_to_connection_map w)
    (connection_to_handler_map w) (handler_initial_state w)
    (randomized_connections w) m (worker_client_id w)
    (command_handler_holding_job_lock w) (connected w) (calls w).

Definition with_worker_client_id (c : option string) (w : GearmanWorker) :=
  mkWorker (connection_list w) (handler_to_connection_map w)
    (connection_to_handler_map w) (handler_initial_state w)
    (randomized_connections w) (worker_abilities w) c
    (command_handler_holding_job_lock w) (connected w) (calls w).

Definition with_job_lock (o : option Handler) (w : GearmanWorker) :=
  mkWorker (connection_list w) (handler_to_connection_map w)
    (connection_to_handler_map w) (handler_initial_state w)
    (randomized_connections w) (worker_abilities w) (worker_client_id w)
    o (connected w) (calls w).

Definition with_maps (h2c : gmap Handler Connection)
    (c2h : gmap Connection Handler) (w : GearmanWorker) :=
  mkWorker (connection_list w) h2c c2h (handler_initial_state w)
    (randomized_connections w) (worker_abilities w) (worker_client_id w)
    (command_handler_holding_job_lock w) (connected w) (calls w).

Definition with_connected (s : gset Connection) (w : GearmanWorker) :=
  mkWorker (connection_list w) (handler_to_connection_map w)
    (connection_to_handler_map w) (handler_initial_state w)
    (randomized_connections w) (worker_abilities w) (worker_client_id w)
    (command_handler_holding_job_lock w) s (calls w).

Definition log (l : list Call) (w : GearmanWorker) :=
  mkWorker (connection_list w) (handler_to_connection_map w)
    (connection_to_handler_map w) (handler_initial_state w)
    (randomized_connections w) (worker_abilities w) (worker_client_id w)
    (command_handler_holding_job_lock w) (connected w) (calls w ++ l).

(** ** Methods as state-passing computations that may raise

    A raise does not undo the assignments made before it. *)
Definition Py (A : Type) : Type := GearmanWorker -> result A * GearmanWorker.

Definition ret {A} (a : A) : Py A := fun w => (Ok a, w).
Definition raise {A} (e : PyExc) : Py A := fun w => (Raise e, w).
Definition bind {A B} (m : Py A) (k : A -> Py B) : Py B :=
  fun w =>
    match m w with
    | (Ok a, w') => k a w'
    | (Raise e, w') => (Raise e, w')
    end.
Definition modify (f : GearmanWorker -> GearmanWorker) : Py unit :=
  fun w => (Ok tt, f w).
Definition gets {A} (f : GearmanWorker -> A) : Py A := fun w => (Ok (f w), w).
Definition lift {A} (r : result A) : Py A := fun w => (r, w).

#[global] Instance Py_ret : MRet Py := @ret.
#[global] Instance Py_bind : MBind Py := fun A B k m => bind m k.

(** [try: body / except Exception: ...]: an instance of [Exception] raised by
    the body is handed to the handler, anything else propagates. *)
Definition try_except_Exception {A} (body : Py A) : Py (A + PyExc) :=
  fun w =>
    match body w with
    | (Ok a, w') => (Ok (inl a), w')
    | (Raise e, w') =>
        if isinstance_Exception e then (Ok (inr e), w') else (Raise e, w')
    end.

(** ** The Job Lock *)

Definition set_job_lock (command_handler : Handler) (lock : bool) : Py bool :=
  fun w =>
    match handler_to_connection_map w !! command_handler with
    | None => (Ok false, w)
    | Some _ =>
        let failed_lock :=
          lock && bool_decide (command_handler_holding_job_lock w <> None) in
        let failed_unlock :=
          negb lock &&
          bool_decide (command_handler_holding_job_lock w <> Some command_handler) in
        if failed_lock || failed_unlock then (Ok false, w)
        else if lock then (Ok true, with_job_lock (Some command_handler) w)
        else (Ok true, with_job_lock None w)
    end.

Definition check_job_lock (command_handler : Handler) (w : GearmanWorker) : bool :=
  bool_decide (command_handler_holding_job_lock w = Some command_handler).

(** A run of [set_job_lock] calls.  Next to the worker it keeps the set of
    handlers that were told [True] on their last lock request and have not
    been told [True] on an unlock request since: the handlers that act as
    owners of the lock. *)
Definition granted_after (h : Handler) (lock : bool) (r : result bool)
    (granted : gset Handler) : gset Handler :=
  match r with
  | Ok true => if lock then {[h]} ∪ granted else granted ∖ {[h]}
  | _ => granted
  end.

Fixpoint run_set_job_lock (reqs : list (Handler * bool)) (w : GearmanWorker)
    (granted : gset Handler) : GearmanWorker * gset Handler :=
  match reqs with
  | [] => (w, granted)
  | (h, lock) :: rest =>
      let '(r, w') := set_job_lock h lock w in
      run_set_job_lock rest w' (granted_after h lock r granted)
  end.

(** The holder as a set of at most one handler. *)
Definition holder_set (w : GearmanWorker) : gset Handler :=
  match command_handler_holding_job_lock w with
  | Some h => {[h]}
  | None => ∅
  end.

(** ** The ability table *)

(** [d.keys()] and [d.iterkeys()]: the keys in the dictionary's own order. *)
Definition keys {K} `{Countable K} {V} (d : gmap K V) : list K :=
  (map_to_list d).*1.

Definition _update_initial_state : Py unit :=
  modify (fun w =>
    with_handler_initial_state
      (mkInitialState (keys (worker_abilities w)) (worker_client_id w)) w).

(** [for command_handler in self.handler_to_connection_map.iterkeys():
       command_handler.set_abilities(self.handler_initial_state['abilities'])] *)
Definition broadcast_abilities : Py unit :=
  modify (fun w =>
    log (map (fun command_handler =>
                handler_set_abilities command_handler
                  (abilities (handler_initial_state w)))
             (keys (handler_to_connection_map w))) w).

Definition broadcast_client_id : Py unit :=
  modify (fun w =>
    log (map (fun command_handler =>
                handler_set_client_id command_handler
                  (client_id (handler_initial_state w)))
             (keys (handler_to_connection_map w))) w).

Definition register_task (task : string) (callback_function : Callback)
    : Py string :=
  modify (fun w =>
    with_worker_abilities (<[task := callback_function]> (worker_abilities w)) w);;
  _update_initial_state;;
  broadcast_abilities;;
  mret task.

Definition unregister_task (task : string) : Py string :=
  modify (fun w => with_worker_abilities (delete task (worker_abilities w)) w);;
  _update_initial_state;;
  broadcast_abilities;;
  mret task.

Definition set_client_id (client_id : option string) : Py (option string) :=
  modify (with_worker_client_id client_id);;
  _update_initial_state;;
  broadcast_client_id;;
  mret client_id.

(** A registration call, and a run of them. *)
Inductive AbilityCall :=
| Register (task : string) (callback_function : Callback)
| Unregister (task : string).

Definition ability_call (c : AbilityCall) : Py string :=
  match c with
  | Register t f => register_task t f
  | Unregister t => unregister_task t
  end.

Definition run_ability_calls (cs : list AbilityCall) (w : GearmanWorker)
    : GearmanWorker :=
  foldl (fun w c => (ability_call c w).2) w cs.

(** The net registered set, as the specification words it: a registration
    adds the name, an unregistration withdraws it. *)
Definition net_registered (cs : list AbilityCall) (start : gset string)
    : gset string :=
  foldl (fun s c =>
           match c with
           | Register t _ => {[t]} ∪ s
           | Unregister t => s ∖ {[t]}
           end) start cs.

(** The calls a method added to the log. *)
Definition calls_since (w w' : GearmanWorker) : list Call :=
  drop (length (calls w)) (calls w').

(** ** Job reports *)

Definition _get_handler_for_job (current_job : Job) : Py Handler :=
  fun w =>
    match connection_to_handler_map w !! conn current_job with
    | Some current_handler => (Ok current_handler, w)
    | None => (Raise (KeyError (KeyConn (conn current_job))), w)
    end.

Definition call (c : Call) : Py unit := modify (log [c]).

Definition send_job_status (current_job : Job) (numerator denominator : Z)
    : Py unit :=
  current_handler ← _get_handler_for_job current_job;
  call (handler_send_job_status current_handler current_job numerator denominator).

Definition send_job_complete (current_job : Job) (data : string) : Py unit :=
  current_handler ← _get_handler_for_job current_job;
  call (handler_send_job_complete current_handler current_job data).

Definition send_job_failure (current_job : Job) : Py unit :=
  current_handler ← _get_handler_for_job current_job;
  call (handler_send_job_failure current_handler current_job).

Definition send_job_exception (current_job : Job) (data : string) : Py unit :=
  current_handler ← _get_handler_for_job current_job;
  call (handler_send_job_exception current_handler current_job data);;
  call (handler_send_job_failure current_handler current_job).

Definition send_job_data (current_job : Job) (data : string) : Py unit :=
  current_handler ← _get_handler_for_job current_job;
  call (handler_send_job_data current_handler current_job data).

Definition send_job_warning (current_job : Job) (data : string) : Py unit :=
  current_handler ← _get_handler_for_job current_job;
  call (handler_send_job_warning current_handler current_job data).

(** The six reporting calls under one name. *)
Inductive Report :=
| ReportStatus (numerator denominator : Z)
| ReportComplete (data : string)
| ReportFailure
| ReportException (data : string)
| ReportData (data : string)
| ReportWarning (data : string).

Definition send_report (r : Report) (current_job : Job) : Py unit :=
  match r with
  | ReportStatus n d => send_job_status current_job n d
  | ReportComplete d => send_job_complete current_job d
  | ReportFailure => send_job_failure current_job
  | ReportException d => send_job_exception current_job d
  | ReportData d => send_job_data current_job d
  | ReportWarning d => send_job_warning current_job d
  end.

(** ** Dispatch of a job to its callback *)

(** [self.worker_abilities[current_job.task]] *)
Definition lookup_callback (task : string) : Py Callback :=
  fun w =>
    match worker_abilities w !! task with
    | Some function_callback => (Ok function_callback, w)
    | None => (Raise (KeyError (KeyTask task)), w)
    end.

Definition on_job_exception (current_job : Job) (exc_info : PyExc) : Py bool :=
  send_job_failure current_job;;
  mret false.

Definition on_job_complete (current_job : Job) (job_result : string) : Py bool :=
  send_job_complete current_job job_result;;
  mret true.

Section Dispatch.

(** [function_callback(current_job)]: the callable is arbitrary code that
    holds a reference to the worker.  It returns the job result or raises,
    and before that it may have called any method of the worker or changed
    its attributes: a computation on the worker like the methods
    themselves. *)
Variable invoke : Callback -> Job -> Py string.

(** The body of the [try] block. *)
Definition run_callback (current_job : Job) : Py string :=
  function_callback ← lookup_callback (task current_job);
  invoke function_callback current_job.

Definition on_job_execute (current_job : Job) : Py bool :=
  outcome ← try_except_Exception (run_callback current_job);
  match outcome with
  | inr exc_info => on_job_exception current_job exc_info
  | inl job_result => on_job_complete current_job job_result
  end.

End Dispatch.

(** ** Connection failure *)

(** Modelled from the spec: [GearmanConnectionManager.handle_error] is
    defined in gearman/_connection_manager.py, which is not part of the
    sources at hand.  The specification has it close the failed connection
    only and discard its handler; the Job Lock belongs to the worker layer
    and is left alone. *)
Definition super_handle_error (current_connection : Connection) : Py unit :=
  modify (fun w =>
    let h2c :=
      match connection_to_handler_map w !! current_connection with
      | Some current_handler =>
          delete current_handler (handler_to_connection_map w)
      | None => handler_to_connection_map w
      end in
    log [connection_close current_connection]
      (with_connected (connected w ∖ {[current_connection]})
         (with_maps h2c
            (delete current_connection (connection_to_handler_map w)) w))).

(** [if current_handler:] takes the branch for every handler object: the
    lookup yields [None] or an object, and objects are true. *)
Definition handle_error (current_connection : Connection) : Py unit :=
  current_handler ← gets (fun w => connection_to_handler_map w !! current_connection);
  match current_handler with
  | Some current_handler => set_job_lock current_handler false;; mret tt
  | None => mret tt
  end;;
  super_handle_error current_connection.

(** ** Name resolution in [shutdown] *)

(** Names bound at module level by worker.py. *)
Definition module_globals : list string :=
  ["logging"; "random"; "sys"; "GearmanConnectionManager"; "ConnectionError";
   "GearmanWorkerCommandHandler"; "gearman_logger"; "POLL_TIMEOUT_IN_SECONDS";
   "GearmanWorker"].

(** The built-in names worker.py refers to. *)
Definition builtins : list string :=
  ["super"; "bool"; "list"; "Exception"; "True"; "False"; "None"].

(** Reading a name inside a method: local scope, module scope, built-ins;
    [NameError] when none binds it. *)
Definition load_name (locals : list string) (name : string) : Py unit :=
  if bool_decide (name ∈ locals ++ module_globals ++ builtins)
  then mret tt
  else raise (NameError name).

(** ** The work loop *)

Definition after_poll (any_activity : bool) : bool := true.

(** Modelled from the spec: [close] of a connection object
    (gearman/connection.py is not part of the sources at hand) clears its
    liveness flag and is safe on a closed connection. *)
Definition close (c : Connection) : Py unit :=
  modify (fun w =>
    log [connection_close c] (with_connected (connected w ∖ {[c]}) w)).

Definition is_connected (c : Connection) : Py bool :=
  gets (fun w => bool_decide (c ∈ connected w)).

Section Superclass.

(** What worker.py calls without defining it: the outcome of
    [random.shuffle], and three methods of [GearmanConnectionManager]. *)
Variable shuffle : list Connection -> list Connection.
Variable attempt_connect : Connection -> Py unit.
Variable poll_connections_until_stopped :
  list Connection -> (bool -> bool) -> Py bool.
Variable super_shutdown : Py unit.

Fixpoint collect_connected (cs output_connections : list Connection)
    : Py (list Connection) :=
  match cs with
  | [] => mret output_connections
  | current_connection :: rest =>
      attempt_connect current_connection;;
      up ← is_connected current_connection;
      collect_connected rest
        (if up : bool then output_connections ++ [current_connection]
         else output_connections)
  end.

Definition get_worker_connections : Py (list Connection) :=
  cl ← gets connection_list;
  let shuffled := shuffle cl in
  modify (with_randomized_connections (Some shuffled));;
  collect_connected shuffled [].

(** The [while continue_working:] loop; [None] when the fuel runs out
    before the poll asks to stop. *)
Fixpoint work_loop (fuel : nat) (w : GearmanWorker)
    : option (result unit * GearmanWorker) :=
  match fuel with
  | O => None
  | S fuel' =>
      match (worker_connections ← get_worker_connections;
             poll_connections_until_stopped worker_connections after_poll) w with
      | (Ok true, w') => work_loop fuel' w'
      | (Ok false, w') => Some (Ok tt, w')
      | (Raise e, w') => Some (Raise e, w')
      end
  end.

Fixpoint close_each (cs : list Connection) : Py unit :=
  match cs with
  | [] => mret tt
  | current_connection :: rest => close current_connection;; close_each rest
  end.

Definition work (fuel : nat) (w : GearmanWorker)
    : option (result unit * GearmanWorker) :=
  let live_connections : list Connection := [] in
  match work_loop fuel w with
  | Some (Ok _, w') => Some (close_each live_connections w')
  | stopped => stopped
  end.

(** [super(GearmanWorker, self).shutdown(current_connection)]: the argument
    is evaluated before the call is made. *)
Definition shutdown : Py unit :=
  modify (with_job_lock None);;
  load_name ["self"] "current_connection";;
  super_shutdown.

End Superclass.

(** ** Concrete workers *)

(** A worker connected to two servers: connections 1 and 2, paired with the
    handlers 11 and 12, no task registered, the Job Lock free. *)
Definition two_server_worker : GearmanWorker :=
  mkWorker [1; 2]%positive
    (<[11 := 1]> (<[12 := 2]> ∅))%positive
    (<[1 := 11]> (<[2 := 12]> ∅))%positive
    (mkInitialState [] None) None ∅ None None
    ({[1; 2]})%positive [].

(** Callable objects: [echo] and [fail] of tests.py, one that leaves
    through [sys.exit()], one that reports data and status before it
    returns, and one that reports an exception before it raises. *)
Definition echo : Callback := 21%positive.
Definition fail : Callback := 22%positive.
Definition quit : Callback := 23%positive.
Definition progress : Callback := 24%positive.
Definition moody : Callback := 25%positive.

(** The same worker after [register_task] of the three callbacks. *)
Definition registered_worker : GearmanWorker :=
  with_handler_initial_state (mkInitialState ["echo"; "fail"; "quit"] None)
    (with_worker_abilities
       (<["echo" := echo]> (<["fail" := fail]> (<["quit" := quit]> ∅)))
       two_server_worker).

(** Jobs assigned on connection 1, and one whose connection 3 is not, or no
    longer, known to the worker. *)
Definition echo_job : Job := mkJob 1 "H:1" "echo" "" "tea".
Definition fail_job : Job := mkJob 1 "H:2" "fail" "" "bar".
Definition quit_job : Job := mkJob 1 "H:3" "quit" "" "".
Definition unknown_job : Job := mkJob 1 "H:4" "reverse" "" "tea".
Definition stale_job : Job := mkJob 3 "H:5" "fail" "" "bar".

(** A network on which every poll asks to stop at once: no reconnection,
    the connections kept in their listed order. *)
Definition keep_order (cs : list Connection) : list Connection := cs.
Definition no_reconnect (c : Connection) : Py unit := mret tt.
Definition stop_at_once (cs : list Connection) (callback : bool -> bool)
    : Py bool := mret false.

(** ** Construction and job creation *)

(** The assignments [__init__] makes once the superclass constructor has
    built [base]: no shuffled list yet, an empty ability table, no client id,
    the Job Lock free, and the initial handler state derived from these. *)
Definition __init__ (base : GearmanWorker) : GearmanWorker :=
  (_update_initial_state
     (with_job_lock None
        (with_worker_client_id None
           (with_worker_abilities ∅
              (with_randomized_connections None base))))).2.

(** Outcome of [create_job]: the job, or the [KeyError] that
    [self.handler_to_connection_map[command_handler]] raises on a handler
    that is not a key. *)
Inductive Created :=
| NewJob (j : Job)
| KeyErrorOnHandler (h : Handler).

Definition create_job (command_handler : Handler)
    (job_handle task unique data : string) (w : GearmanWorker) : Created :=
  match handler_to_connection_map w !! command_handler with
  | Some current_connection =>
      NewJob (mkJob current_connection job_handle task unique data)
  | None => KeyErrorOnHandler command_handler
  end.

(** ** Runs of method calls *)

(** The methods of worker.py that change the worker or talk to a handler,
    with their arguments. *)
Inductive Method :=
| call_register_task (task : string) (callback_function : Callback)
| call_unregister_task (task : string)
| call_set_client_id (client_id : option string)
| call_set_job_lock (command_handler : Handler) (lock : bool)
| call_send_report (r : Report) (current_job : Job)
| call_on_job_execute (current_job : Job)
| call_handle_error (current_connection : Connection).

(** The worker after one method call, whether the call returned or raised;
    [invoke] is what calling a callback does. *)
Definition after_method (invoke : Callback -> Job -> Py string)
    (m : Method) (w : GearmanWorker) : GearmanWorker :=
  match m with
  | call_register_task t f => (register_task t f w).2
  | call_unregister_task t => (unregister_task t w).2
  | call_set_client_id c => (set_client_id c w).2
  | call_set_job_lock h lock => (set_job_lock h lock w).2
  | call_send_report r j => (send_report r j w).2
  | call_on_job_execute j => (on_job_execute invoke j w).2
  | call_handle_error c => (handle_error c w).2
  end.

Definition after_methods (invoke : Callback -> Job -> Py string)
    (ms : list Method) (w : GearmanWorker) : GearmanWorker :=
  foldl (fun w m => after_method invoke m w) w ms.

(** ** Callbacks that use the worker through its methods *)

(** What a method hands back to the callback that called it. *)
Inductive PyValue :=
| PyNone
| PyBool (b : bool)
| PyStr (s : option string).

(** The course of one call of a callback: it returns, raises, reads the
    worker's attributes, or calls a method of the worker and goes on
    according to what the method returned or raised. *)
Inductive Script :=
| Return (r : string)
| RaiseExc (e : PyExc)
| Look (k : GearmanWorker -> Script)
| Ask (m : Method) (k : result PyValue -> Script).

Section Scripts.

(** How a dispatch requested from inside a callback is carried out. *)
Variable dispatch : Job -> Py bool.

Definition method_outcome (m : Method) : Py PyValue :=
  match m with
  | call_register_task t f => r ← register_task t f; mret (PyStr (Some r))
  | call_unregister_task t => r ← unregister_task t; mret (PyStr (Some r))
  | call_set_client_id c => r ← set_client_id c; mret (PyStr r)
  | call_set_job_lock h lock => b ← set_job_lock h lock; mret (PyBool b)
  | call_send_report r j => send_report r j;; mret PyNone
  | call_on_job_execute j => b ← dispatch j; mret (PyBool b)
  | call_handle_error c => handle_error c;; mret PyNone
  end.

Fixpoint run_script (s : Script) (w : GearmanWorker)
    : result string * GearmanWorker :=
  match s with
  | Return r => (Ok r, w)
  | RaiseExc e => (Raise e, w)
  | Look k => run_script (k w) w
  | Ask m k =>
      let '(out, w') := method_outcome m w in
      run_script (k out) w'
  end.

End Scripts.

(** Calling a callback whose course is given by [body].  A callback may
    dispatch a job itself; [depth] bounds how deep such calls may nest, as
    the interpreter's recursion limit does, beyond which the nested dispatch
    raises [RuntimeError]. *)
Fixpoint scripted (body : Callback -> Job -> Script) (depth : nat)
    (f : Callback) (j : Job) : Py string :=
  match depth with
  | O =>
      run_script (fun _ => raise (ExceptionInstance "RuntimeError")) (body f j)
  | S d =>
      run_script (on_job_execute (scripted body d)) (body f j)
  end.

(** A callback passes on what a method it called has raised. *)
Definition and_then (m : Method) (k : Script) : Script :=
  Ask m (fun out =>
    match out with
    | Ok _ => k
    | Raise e => RaiseExc e
    end).

(** The courses of the five callable objects above. *)
Definition sample_body (f : Callback) (job : Job) : Script :=
  if decide (f = echo) then Return (data job)
  else if decide (f = fail) then RaiseExc (ExceptionInstance "FailedError")
  else if decide (f = quit) then RaiseExc (BaseExceptionOnly "SystemExit")
  else if decide (f = progress) then
    and_then (call_send_report (ReportData "half") job)
      (and_then (call_send_report (ReportStatus 1 2) job)
         (Return (data job)))
  else if decide (f = moody) then
    and_then (call_send_report (ReportException "boom") job)
      (RaiseExc (ExceptionInstance "FailedError"))
  else Return "".

Definition sample_invoke : Callback -> Job -> Py string :=
  scripted sample_body 4.

(** The registered worker with [progress] and [moody] registered as well. *)
Definition busy_worker : GearmanWorker :=
  (register_task "moody" moody
     (register_task "progress" progress registered_worker).2).2.

Definition progress_job : Job := mkJob 1 "H:6" "progress" "" "tea".
Definition moody_job : Job := mkJob 1 "H:7" "moody" "" "bar".

(** The two dictionaries pair the same handlers with the same connections. *)
Definition maps_paired (w : GearmanWorker) : Prop :=
  forall (h : Handler) (c : Connection),
    handler_to_connection_map w !! h = Some c <->
    connection_to_handler_map w !! c = Some h.

(** Whoever holds the Job Lock is a key of [handler_to_connection_map]. *)
Definition job_lock_holder_known (w : GearmanWorker) : Prop :=
  forall h : Handler,
    command_handler_holding_job_lock w = Some h ->
    is_Some (handler_to_connection_map w !! h).

(** The handler and job a report call is made on and for. *)
Definition report_target (c : Call) : option (Handler * Job) :=
  match c with
  | handler_send_job_status h j _ _ => Some (h, j)
  | handler_send_job_complete h j _ => Some (h, j)
  | handler_send_job_failure h j => Some (h, j)
  | handler_send_job_exception h j _ => Some (h, j)
  | handler_send_job_data h j _ => Some (h, j)
  | handler_send_job_warning h j _ => Some (h, j)
  | _ => None
  end.

(** A network on which every poll asks to go on. *)
Definition never_stop (cs : list Connection) (callback : bool -> bool)
    : Py bool := mret (callback true).

(** The task name a registration call is about. *)
Definition ability_task (c : AbilityCall) : string :=
  match c with
  | Register t _ => t
  | Unregister t => t
  end.

(** ** Theorems *)

Ltac py_unfold :=
  unfold call in *;
  unfold mbind, mret, Py_bind, Py_ret, bind, ret, modify, gets, lift, raise in *.

(** *** The Job Lock *)

Lemma set_job_lock_cases h lock w :
  set_job_lock h lock w =
    if bool_decide (is_Some (handler_to_connection_map w !! h)) then
      if lock then
        match command_handler_holding_job_lock w with
        | None => (Ok true, with_job_lock (Some h) w)
        | Some _ => (Ok false, w)
        end
      else if bool_decide (command_handler_holding_job_lock w = Some h)
           then (Ok true, with_job_lock None w)
           else (Ok false, w)
    else (Ok false, w).
Proof.
  unfold set_job_lock.
  destruct (handler_to_connection_map w !! h) as [c|] eqn:Hh.
  - rewrite (bool_decide_eq_true_2 (is_Some (Some c))) by eauto.
    destruct lock; simpl.
    + destruct (command_handler_holding_job_lock w); simpl; reflexivity.
    + repeat case_bool_decide; simpl; congruence.
  - rewrite (bool_decide_eq_false_2 (is_Some None)); [reflexivity|].
    intros [? ?]; discriminate.
Qed.

Lemma set_job_lock_granted h w w' :
  set_job_lock h true w = (Ok true, w') ->
  command_handler_holding_job_lock w = None /\ w' = with_job_lock (Some h) w.
Proof.
  rewrite set_job_lock_cases.
  case_bool_decide; [|discriminate].
  destruct (command_handler_holding_job_lock w); [discriminate|].
  intros [= <-]. split; reflexivity.
Qed.

Lemma holder_set_with_job_lock o w :
  holder_set (with_job_lock o w) = match o with Some h => {[h]} | None => ∅ end.
Proof. reflexivity. Qed.

Lemma set_job_lock_keeps_granted h lock w :
  granted_after h lock (set_job_lock h lock w).1 (holder_set w)
  = holder_set (set_job_lock h lock w).2.
Proof.
  rewrite set_job_lock_cases.
  case_bool_decide as Hknown; [clear Hknown|reflexivity].
  destruct lock.
  - unfold holder_set at 1.
    destruct (command_handler_holding_job_lock w) eqn:Hl; simpl.
    + unfold holder_set. rewrite Hl. reflexivity.
    + apply (right_id_L ∅ (∪)).
  - case_bool_decide as Hl; simpl; [|reflexivity].
    unfold holder_set. rewrite Hl. simpl. apply difference_diag_L.
Qed.

Lemma run_set_job_lock_granted reqs :
  forall w, (run_set_job_lock reqs w (holder_set w)).2
            = holder_set (run_set_job_lock reqs w (holder_set w)).1.
Proof.
  induction reqs as [|[h lock] rest IH]; intros w; simpl; [reflexivity|].
  pose proof (set_job_lock_keeps_granted h lock w) as Hstep.
  destruct (set_job_lock h lock w) as [r w']; simpl in Hstep.
  rewrite Hstep. apply IH.
Qed.

Lemma holder_set_size w : size (holder_set w) <= 1.
Proof.
  unfold holder_set. destruct (command_handler_holding_job_lock w).
  - rewrite size_singleton. lia.
  - rewrite size_empty. lia.
Qed.

(** C1: starting with the Job Lock free, after any run of [set_job_lock]
    calls the handlers that were granted the lock and have not given it back
    are exactly the recorded holder, hence at most one; [check_job_lock]
    answers [True] for at most one handler; and a lock request is granted
    only when nobody holds the lock, the requester becoming the holder. *)
Theorem job_lock_at_most_one_holder
    (reqs : list (Handler * bool)) (w0 : GearmanWorker) :
  command_handler_holding_job_lock w0 = None ->
  let w := (run_set_job_lock reqs w0 ∅).1 in
  let granted := (run_set_job_lock reqs w0 ∅).2 in
  granted = holder_set w /\
  size granted <= 1 /\
  (forall h1 h2 : Handler,
     check_job_lock h1 w = true -> check_job_lock h2 w = true -> h1 = h2) /\
  (forall (h : Handler) (w' : GearmanWorker),
     set_job_lock h true w = (Ok true, w') ->
     command_handler_holding_job_lock w = None /\
     command_handler_holding_job_lock w' = Some h /\
     check_job_lock h w' = true).
Proof.
  intros Hfree w granted.
  assert (Hg : granted = holder_set w).
  { subst w granted.
    replace (∅ : gset Handler) with (holder_set w0)
      by (unfold holder_set; rewrite Hfree; reflexivity).
    apply run_set_job_lock_granted. }
  split; [exact Hg|]. split; [rewrite Hg; apply holder_set_size|]. split.
  - intros h1 h2 H1 H2. unfold check_job_lock in *.
    apply bool_decide_eq_true_1 in H1, H2. congruence.
  - intros h w' Hset. apply set_job_lock_granted in Hset as [Hnone ->].
    split; [exact Hnone|]. split; [reflexivity|].
    unfold check_job_lock. simpl. apply bool_decide_eq_true_2. reflexivity.
Qed.

Lemma job_lock_at_most_one_holder_witness :
  command_handler_holding_job_lock two_server_worker = None /\
  (run_set_job_lock [(11, true); (12, true); (11, false); (12, true)]%positive
     two_server_worker ∅).2
  = holder_set
      (run_set_job_lock [(11, true); (12, true); (11, false); (12, true)]%positive
         two_server_worker ∅).1.
Proof.
  split; [reflexivity|].
  exact (proj1 (job_lock_at_most_one_holder
                  [(11, true); (12, true); (11, false); (12, true)]%positive
                  two_server_worker eq_refl)).
Defined.

(** C7: a lock request made while another handler holds the Job Lock, and
    an unlock request made by a handler that is not the holder, both return
    [False] without raising and leave the worker, the holder included, as it
    was. *)
Theorem set_job_lock_contention
    (h : Handler) (lock : bool) (w : GearmanWorker) :
  (if lock
   then exists h' : Handler,
          command_handler_holding_job_lock w = Some h' /\ h' <> h
   else command_handler_holding_job_lock w <> Some h) ->
  set_job_lock h lock w = (Ok false, w).
Proof.
  intros Hc. rewrite set_job_lock_cases.
  case_bool_decide; [|reflexivity].
  destruct lock.
  - destruct Hc as (h' & -> & _). reflexivity.
  - rewrite bool_decide_eq_false_2 by exact Hc. reflexivity.
Qed.

Lemma set_job_lock_contention_witness :
  set_job_lock 12%positive true (with_job_lock (Some 11%positive) two_server_worker)
    = (Ok false, with_job_lock (Some 11%positive) two_server_worker) /\
  set_job_lock 12%positive false (with_job_lock (Some 11%positive) two_server_worker)
    = (Ok false, with_job_lock (Some 11%positive) two_server_worker).
Proof.
  split.
  - apply (set_job_lock_contention 12%positive true).
    exists 11%positive. split; [reflexivity | discriminate].
  - apply (set_job_lock_contention 12%positive false). discriminate.
Defined.

(** *** The ability table *)

Lemma keys_dom {K} `{Countable K} {V} (d : gmap K V) :
  list_to_set (keys d) = dom d.
Proof. unfold keys. apply leibniz_equiv. symmetry. apply dom_alt. Qed.

Lemma elem_of_keys {K} `{Countable K} {V} (d : gmap K V) k :
  k ∈ keys d <-> is_Some (d !! k).
Proof.
  rewrite <- elem_of_dom, <- keys_dom, elem_of_list_to_set. reflexivity.
Qed.

Lemma register_task_state t f w :
  (register_task t f w).2 =
    let w1 := with_worker_abilities (<[t := f]> (worker_abilities w)) w in
    let w2 := with_handler_initial_state
                (mkInitialState (keys (worker_abilities w1)) (worker_client_id w1)) w1 in
    log (map (fun h => handler_set_abilities h (keys (worker_abilities w1)))
             (keys (handler_to_connection_map w))) w2.
Proof. reflexivity. Qed.

Lemma unregister_task_state t w :
  (unregister_task t w).2 =
    let w1 := with_worker_abilities (delete t (worker_abilities w)) w in
    let w2 := with_handler_initial_state
                (mkInitialState (keys (worker_abilities w1)) (worker_client_id w1)) w1 in
    log (map (fun h => handler_set_abilities h (keys (worker_abilities w1)))
             (keys (handler_to_connection_map w))) w2.
Proof. reflexivity. Qed.

Lemma calls_since_log l w w' :
  calls w' = calls w ++ l -> calls_since w w' = l.
Proof. unfold calls_since. intros ->. apply drop_app_length. Qed.

(** What one registration call does, whichever of the two it is. *)
Lemma ability_call_state c w :
  let w' := (ability_call c w).2 in
  dom (worker_abilities w') = net_registered [c] (dom (worker_abilities w)) /\
  handler_to_connection_map w' = handler_to_connection_map w /\
  abilities (handler_initial_state w') = keys (worker_abilities w') /\
  calls_since w w' =
    map (fun h => handler_set_abilities h (keys (worker_abilities w')))
        (keys (handler_to_connection_map w)).
Proof.
  destruct c as [t f|t]; cbn [ability_call].
  - rewrite register_task_state. simpl.
    repeat split; [apply dom_insert_L | apply calls_since_log; reflexivity].
  - rewrite unregister_task_state. simpl.
    repeat split; [apply dom_delete_L | apply calls_since_log; reflexivity].
Qed.

Lemma net_registered_snoc cs c s :
  net_registered (cs ++ [c]) s = net_registered [c] (net_registered cs s).
Proof. unfold net_registered. rewrite foldl_app. reflexivity. Qed.

Lemma run_ability_calls_snoc cs c w :
  run_ability_calls (cs ++ [c]) w = (ability_call c (run_ability_calls cs w)).2.
Proof. unfold run_ability_calls. rewrite foldl_app. reflexivity. Qed.

Lemma run_ability_calls_dom cs :
  forall w, dom (worker_abilities (run_ability_calls cs w))
            = net_registered cs (dom (worker_abilities w)).
Proof.
  induction cs as [|c cs IH] using rev_ind; intros w; [reflexivity|].
  rewrite run_ability_calls_snoc, net_registered_snoc, <- IH.
  apply ability_call_state.
Qed.

(** C6: whatever registration calls came before, in whatever order, a
    [register_task] or [unregister_task] call leaves the keys of
    [worker_abilities] equal to the net registered set; the ability list
    seeded into [handler_initial_state] is that set; the call sends one
    [set_abilities] to each handler of [handler_to_connection_map] and to
    nobody else, each carrying that set. *)
Theorem broadcast_equals_net_registered
    (cs : list AbilityCall) (c : AbilityCall) (w0 : GearmanWorker) :
  let w := run_ability_calls cs w0 in
  let w' := (ability_call c w).2 in
  let net := net_registered (cs ++ [c]) (dom (worker_abilities w0)) in
  dom (worker_abilities w') = net /\
  list_to_set (abilities (handler_initial_state w')) = net /\
  calls_since w w' =
    map (fun h => handler_set_abilities h (abilities (handler_initial_state w')))
        (keys (handler_to_connection_map w')) /\
  (forall h : Handler,
     is_Some (handler_to_connection_map w' !! h) ->
     exists l, handler_set_abilities h l ∈ calls_since w w' /\
               list_to_set l = net) /\
  (forall broadcast : Call,
     broadcast ∈ calls_since w w' ->
     exists h l, broadcast = handler_set_abilities h l /\
                 is_Some (handler_to_connection_map w' !! h) /\
                 list_to_set l = net).
Proof.
  intros w w' net.
  destruct (ability_call_state c w) as (Hdom & Hmap & Hinit & Hcalls).
  fold w' in Hdom, Hmap, Hinit, Hcalls.
  assert (Hnet : dom (worker_abilities w') = net).
  { rewrite Hdom. subst w net.
    rewrite run_ability_calls_dom, net_registered_snoc. reflexivity. }
  assert (Hkeys : list_to_set (keys (worker_abilities w')) = net)
    by (rewrite keys_dom; exact Hnet).
  split; [exact Hnet|]. split; [rewrite Hinit; exact Hkeys|].
  split; [rewrite Hinit, Hmap; exact Hcalls|]. split.
  - intros h Hh. exists (keys (worker_abilities w')). split; [|exact Hkeys].
    rewrite Hcalls. apply list_elem_of_fmap. exists h. split; [reflexivity|].
    apply elem_of_keys. rewrite <- Hmap. exact Hh.
  - intros b Hb. rewrite Hcalls in Hb.
    apply list_elem_of_fmap in Hb as (h & -> & Hh).
    exists h, (keys (worker_abilities w')). split; [reflexivity|].
    split; [|exact Hkeys]. rewrite Hmap. apply elem_of_keys. exact Hh.
Qed.

(** *** Job reports *)

Lemma log_log l1 l2 w : log l2 (log l1 w) = log (l1 ++ l2) w.
Proof. unfold log. simpl. rewrite <- app_assoc. reflexivity. Qed.

Lemma _get_handler_for_job_live j h w :
  connection_to_handler_map w !! conn j = Some h ->
  _get_handler_for_job j w = (Ok h, w).
Proof. unfold _get_handler_for_job. intros ->. reflexivity. Qed.

Lemma _get_handler_for_job_stale j w :
  connection_to_handler_map w !! conn j = None ->
  _get_handler_for_job j w = (Raise (KeyError (KeyConn (conn j))), w).
Proof. unfold _get_handler_for_job. intros ->. reflexivity. Qed.

Lemma send_job_failure_live j h w :
  connection_to_handler_map w !! conn j = Some h ->
  send_job_failure j w = (Ok tt, log [handler_send_job_failure h j] w).
Proof.
  intros Hh. unfold send_job_failure. py_unfold.
  rewrite (_get_handler_for_job_live j h w Hh). reflexivity.
Qed.

(** C8: for a job whose connection is paired with handler [h],
    [send_job_exception] returns normally having called, on [h] and for this
    job, first [send_job_exception] with the payload and then
    [send_job_failure], and nothing else. *)
Theorem send_job_exception_then_failure
    (current_job : Job) (payload : string) (h : Handler) (w : GearmanWorker) :
  connection_to_handler_map w !! conn current_job = Some h ->
  send_job_exception current_job payload w =
    (Ok tt, log [handler_send_job_exception h current_job payload;
                 handler_send_job_failure h current_job] w).
Proof.
  intros Hh. unfold send_job_exception. py_unfold.
  rewrite (_get_handler_for_job_live current_job h w Hh). cbn beta iota.
  rewrite log_log. reflexivity.
Qed.

Lemma send_job_exception_then_failure_witness :
  send_job_exception fail_job "boom" registered_worker =
    (Ok tt, log [handler_send_job_exception 11%positive fail_job "boom";
                 handler_send_job_failure 11%positive fail_job]
              registered_worker).
Proof.
  apply (send_job_exception_then_failure fail_job "boom" 11%positive).
  reflexivity.
Defined.

Lemma send_report_stale r j w :
  connection_to_handler_map w !! conn j = None ->
  send_report r j w = (Raise (KeyError (KeyConn (conn j))), w).
Proof.
  intros Hstale.
  destruct r; cbn [send_report];
    unfold send_job_status, send_job_complete, send_job_failure,
      send_job_exception, send_job_data, send_job_warning; py_unfold;
    rewrite (_get_handler_for_job_stale j w Hstale); reflexivity.
Qed.

(** C5, as the code has it: a report against a job whose connection is
    absent from [connection_to_handler_map] raises [KeyError] to its caller;
    nothing is sent and the worker is left as it was. *)
Theorem stale_job_report_raises_KeyError
    (r : Report) (current_job : Job) (w : GearmanWorker) :
  connection_to_handler_map w !! conn current_job = None ->
  send_report r current_job w =
    (Raise (KeyError (KeyConn (conn current_job))), w) /\
  calls (send_report r current_job w).2 = calls w /\
  ~ exists w', send_report r current_job w = (Ok tt, w').
Proof.
  intros Hstale.
  rewrite (send_report_stale r current_job w Hstale).
  split; [reflexivity|]. split; [reflexivity|].
  intros [w' Hok]. discriminate.
Qed.

Lemma stale_job_report_raises_KeyError_witness :
  connection_to_handler_map registered_worker !! conn stale_job = None /\
  send_report (ReportComplete "bar") stale_job registered_worker =
    (Raise (KeyError (KeyConn 3%positive)), registered_worker).
Proof.
  split; [reflexivity|].
  exact (proj1 (stale_job_report_raises_KeyError (ReportComplete "bar")
                  stale_job registered_worker eq_refl)).
Defined.

(** C5 as stated fails: on the stale job none of the six reporting calls
    returns normally. *)
Lemma stale_job_report_not_tolerated :
  connection_to_handler_map registered_worker !! conn stale_job = None /\
  forall r : Report,
    ~ exists w', send_report r stale_job registered_worker = (Ok tt, w').
Proof.
  split; [reflexivity|].
  intros r [w' Hok].
  rewrite send_report_stale in Hok by reflexivity.
  discriminate.
Qed.

(** *** Dispatch *)

Lemma run_callback_registered invoke j f w :
  worker_abilities w !! task j = Some f ->
  run_callback invoke j w = invoke f j w.
Proof.
  intros Hf. unfold run_callback, lookup_callback. py_unfold.
  rewrite Hf. destruct (invoke f j w) as [[r|e] w1]; reflexivity.
Qed.

Lemma run_callback_unregistered invoke j w :
  worker_abilities w !! task j = None ->
  run_callback invoke j w = (Raise (KeyError (KeyTask (task j))), w).
Proof.
  intros Hf. unfold run_callback, lookup_callback. py_unfold.
  rewrite Hf. reflexivity.
Qed.

(** What [on_job_execute] does once the [try] block has raised [e],
    leaving the worker as [w1]. *)
Lemma on_job_execute_raised invoke j e w w1 :
  run_callback invoke j w = (Raise e, w1) ->
  on_job_execute invoke j w =
    if isinstance_Exception e
    then (let '(r, w') := send_job_failure j w1 in
          match r with Ok _ => (Ok false, w') | Raise e' => (Raise e', w') end)
    else (Raise e, w1).
Proof.
  intros Hrun. unfold on_job_execute, try_except_Exception, on_job_exception.
  py_unfold. rewrite Hrun.
  destruct (isinstance_Exception e); [|reflexivity].
  destruct (send_job_failure j w1) as [[[]|e'] w']; reflexivity.
Qed.

(** C2, as the code has it: when the callback of a job raises an instance
    of [Exception], having left the worker as [w1], and the job's connection
    is then paired with handler [h], [on_job_execute] catches the exception,
    calls [send_job_failure] on [h] for this job, adding this one call to
    what the callback itself has done, and returns [False]; it does not
    raise. *)
Theorem callback_Exception_reported_as_failure
    (invoke : Callback -> Job -> Py string)
    (current_job : Job) (function_callback : Callback) (e : PyExc)
    (h : Handler) (w w1 : GearmanWorker) :
  worker_abilities w !! task current_job = Some function_callback ->
  invoke function_callback current_job w = (Raise e, w1) ->
  isinstance_Exception e = true ->
  connection_to_handler_map w1 !! conn current_job = Some h ->
  on_job_execute invoke current_job w =
    (Ok false, log [handler_send_job_failure h current_job] w1).
Proof.
  intros Hf He Hexc Hh.
  rewrite (on_job_execute_raised invoke current_job e w w1).
  - rewrite Hexc, (send_job_failure_live current_job h w1 Hh). reflexivity.
  - rewrite (run_callback_registered invoke current_job function_callback w Hf).
    exact He.
Qed.

Lemma callback_Exception_reported_as_failure_witness :
  on_job_execute sample_invoke moody_job busy_worker =
    (Ok false,
     log [handler_send_job_failure 11%positive moody_job]
       (log [handler_send_job_exception 11%positive moody_job "boom";
             handler_send_job_failure 11%positive moody_job]
          busy_worker)) /\
  on_job_execute sample_invoke fail_job registered_worker =
    (Ok false, log [handler_send_job_failure 11%positive fail_job]
                 registered_worker).
Proof.
  split.
  - apply (callback_Exception_reported_as_failure sample_invoke moody_job moody
             (ExceptionInstance "FailedError") 11%positive);
      reflexivity.
  - apply (callback_Exception_reported_as_failure sample_invoke fail_job fail
             (ExceptionInstance "FailedError") 11%positive);
      reflexivity.
Defined.

(** C2 as stated fails: a callback that raises [SystemExit], which is not an
    instance of [Exception], is not caught; the exception leaves
    [on_job_execute] and no report is sent. *)
Lemma callback_SystemExit_propagates :
  worker_abilities registered_worker !! task quit_job = Some quit /\
  sample_invoke quit quit_job registered_worker =
    (Raise (BaseExceptionOnly "SystemExit"), registered_worker) /\
  connection_to_handler_map registered_worker !! conn quit_job = Some 11%positive /\
  on_job_execute sample_invoke quit_job registered_worker =
    (Raise (BaseExceptionOnly "SystemExit"), registered_worker).
Proof. repeat split; reflexivity. Qed.

(** C9: for a job whose task has no entry in [worker_abilities] and whose
    connection is paired with handler [h], the lookup at the head of the
    [try] block raises [KeyError] on the task name, no callback runs, and
    [on_job_execute] turns it into one [send_job_failure] on [h] for this job
    and returns [False]: the log grows, the call is not a silent no-op. *)
Theorem unregistered_task_reported_as_failure
    (invoke : Callback -> Job -> Py string)
    (current_job : Job) (h : Handler) (w : GearmanWorker) :
  worker_abilities w !! task current_job = None ->
  connection_to_handler_map w !! conn current_job = Some h ->
  run_callback invoke current_job w =
    (Raise (KeyError (KeyTask (task current_job))), w) /\
  on_job_execute invoke current_job w =
    (Ok false, log [handler_send_job_failure h current_job] w) /\
  calls_since w (on_job_execute invoke current_job w).2 =
    [handler_send_job_failure h current_job].
Proof.
  intros Hf Hh.
  pose proof (run_callback_unregistered invoke current_job w Hf) as Hrun.
  assert (Hexec : on_job_execute invoke current_job w =
            (Ok false, log [handler_send_job_failure h current_job] w)).
  { rewrite (on_job_execute_raised invoke current_job _ w w Hrun).
    cbn [isinstance_Exception].
    rewrite (send_job_failure_live current_job h w Hh). reflexivity. }
  split; [exact Hrun|]. split; [exact Hexec|].
  rewrite Hexec. apply calls_since_log. reflexivity.
Qed.

Lemma unregistered_task_reported_as_failure_witness :
  worker_abilities registered_worker !! task unknown_job = None /\
  on_job_execute sample_invoke unknown_job registered_worker =
    (Ok false, log [handler_send_job_failure 11%positive unknown_job]
                 registered_worker).
Proof.
  split; [reflexivity|].
  exact (proj1 (proj2 (unregistered_task_reported_as_failure sample_invoke
                         unknown_job 11%positive registered_worker
                         eq_refl eq_refl))).
Defined.

(** *** Connection failure *)

Lemma super_handle_error_keeps_job_lock c w :
  command_handler_holding_job_lock (super_handle_error c w).2
  = command_handler_holding_job_lock w.
Proof. reflexivity. Qed.

(** C3: when the handler paired with a connection holds the Job Lock,
    [handle_error] on that connection first releases the lock and only then
    runs the manager's teardown, which therefore starts from a worker whose
    lock is free; afterwards the lock is free, the connection is closed, and
    another registered handler is granted the lock on request. *)
Theorem handle_error_releases_job_lock
    (current_connection : Connection) (h : Handler) (w : GearmanWorker) :
  connection_to_handler_map w !! current_connection = Some h ->
  is_Some (handler_to_connection_map w !! h) ->
  command_handler_holding_job_lock w = Some h ->
  let w' := (handle_error current_connection w).2 in
  set_job_lock h false w = (Ok true, with_job_lock None w) /\
  handle_error current_connection w =
    super_handle_error current_connection (with_job_lock None w) /\
  command_handler_holding_job_lock w' = None /\
  (current_connection ∉ connected w') /\
  (forall h' : Handler,
     is_Some (handler_to_connection_map w' !! h') ->
     (set_job_lock h' true w').1 = Ok true).
Proof.
  intros Hc Hh Hlock w'. subst w'.
  assert (Hrelease : set_job_lock h false w = (Ok true, with_job_lock None w)).
  { rewrite set_job_lock_cases.
    rewrite bool_decide_eq_true_2 by exact Hh.
    rewrite bool_decide_eq_true_2 by exact Hlock. reflexivity. }
  assert (Herr : handle_error current_connection w =
            super_handle_error current_connection (with_job_lock None w)).
  { unfold handle_error. py_unfold. rewrite Hc, Hrelease. reflexivity. }
  split; [exact Hrelease|]. split; [exact Herr|]. rewrite Herr.
  split; [reflexivity|]. split.
  - simpl. apply not_elem_of_difference. right.
    apply elem_of_singleton. reflexivity.
  - intros h' Hh'. rewrite set_job_lock_cases.
    rewrite bool_decide_eq_true_2 by exact Hh'. reflexivity.
Qed.

Lemma handle_error_releases_job_lock_witness :
  command_handler_holding_job_lock
    (with_job_lock (Some 11%positive) two_server_worker) = Some 11%positive /\
  command_handler_holding_job_lock
    (handle_error 1%positive
       (with_job_lock (Some 11%positive) two_server_worker)).2 = None.
Proof.
  split; [reflexivity|].
  refine (proj1 (proj2 (proj2
    (handle_error_releases_job_lock 1%positive 11%positive
       (with_job_lock (Some 11%positive) two_server_worker)
       eq_refl _ eq_refl)))).
  exists 1%positive. reflexivity.
Defined.

(** *** Shutdown *)

(** C10: in every worker state, whatever the superclass method would do,
    [shutdown] sets [command_handler_holding_job_lock] to [None] and then
    raises [NameError] on [current_connection]; it never returns
    normally and the superclass method is never entered. *)
Theorem shutdown_raises_NameError
    (super_shutdown : Py unit) (w : GearmanWorker) :
  shutdown super_shutdown w =
    (Raise (NameError "current_connection"), with_job_lock None w) /\
  command_handler_holding_job_lock (shutdown super_shutdown w).2 = None /\
  ~ exists w', shutdown super_shutdown w = (Ok tt, w').
Proof.
  assert (Hs : shutdown super_shutdown w =
            (Raise (NameError "current_connection"), with_job_lock None w))
    by reflexivity.
  split; [exact Hs|]. rewrite Hs. split; [reflexivity|].
  intros [w' Hok]. discriminate.
Qed.

(** *** The work loop *)

Section WorkLoop.

Variable shuffle : list Connection -> list Connection.
Variable attempt_connect : Connection -> Py unit.
Variable poll_connections_until_stopped :
  list Connection -> (bool -> bool) -> Py bool.

(** Whatever the network does, [work] ends in the very state in which
    its loop ended: the closing pass runs over the empty list. *)
Lemma work_is_work_loop fuel w :
  work shuffle attempt_connect poll_connections_until_stopped fuel w
  = work_loop shuffle attempt_connect poll_connections_until_stopped fuel w.
Proof.
  unfold work.
  destruct (work_loop _ _ _ fuel w) as [[[[]|e] w']|]; reflexivity.
Qed.

End WorkLoop.

(** C4 fails on the code: with both connections live and the first poll
    asking to stop, [work] returns normally and has closed neither
    connection. *)
Theorem work_leaves_live_connections_open :
  exists w',
    work keep_order no_reconnect stop_at_once 1 two_server_worker
      = Some (Ok tt, w') /\
    connected w' = {[1; 2]}%positive /\
    calls w' = [] /\
    (forall c : Connection, c ∈ connected w' -> connection_close c ∉ calls w').
Proof.
  eexists. split; [reflexivity|]. split; [reflexivity|].
  split; [reflexivity|]. intros c _ Hc. simpl in Hc. inversion Hc.
Qed.

(** ** Further properties of worker.py *)

(** *** Registration and the client id *)

Lemma keys_NoDup {K} `{Countable K} {V} (d : gmap K V) : NoDup (keys d).
Proof. apply NoDup_fst_map_to_list. Qed.

(** X1: [set_client_id] returns its argument, stores it as the worker's and
    as the initial handler state's client id, and tells it to every handler
    of [handler_to_connection_map], each exactly once, and to nobody else;
    the ability table and the Job Lock are left alone. *)
Theorem set_client_id_broadcast (c : option string) (w : GearmanWorker) :
  let w' := (set_client_id c w).2 in
  (set_client_id c w).1 = Ok c /\
  worker_client_id w' = c /\
  client_id (handler_initial_state w') = c /\
  NoDup (calls_since w w') /\
  (forall b : Call,
     b ∈ calls_since w w' <->
     exists h : Handler,
       is_Some (handler_to_connection_map w !! h) /\
       b = handler_set_client_id h c) /\
  worker_abilities w' = worker_abilities w /\
  command_handler_holding_job_lock w' = command_handler_holding_job_lock w.
Proof.
  intros w'.
  assert (Hcalls : calls_since w w' =
            map (fun h => handler_set_client_id h c)
                (keys (handler_to_connection_map w)))
    by (apply calls_since_log; reflexivity).
  split; [reflexivity|]. split; [reflexivity|]. split; [reflexivity|].
  split; [|split; [|split; reflexivity]].
  - rewrite Hcalls. apply NoDup_fmap_2_strong; [|apply keys_NoDup].
    intros x y _ _ [= ->]. reflexivity.
  - intros b. rewrite Hcalls. split.
    + intros (h & -> & Hh)%list_elem_of_fmap. exists h.
      split; [apply elem_of_keys; exact Hh | reflexivity].
    + intros (h & Hh & ->). apply list_elem_of_fmap. exists h.
      split; [reflexivity | apply elem_of_keys; exact Hh].
Qed.

(** X2: [unregister_task] of a name that is not registered does not raise:
    it returns the name, leaves the ability table as it was, and still
    sends the unchanged ability list to every handler. *)
Theorem unregister_unknown_task (t : string) (w : GearmanWorker) :
  worker_abilities w !! t = None ->
  let w' := (unregister_task t w).2 in
  (unregister_task t w).1 = Ok t /\
  worker_abilities w' = worker_abilities w /\
  calls_since w w' =
    map (fun h => handler_set_abilities h (keys (worker_abilities w)))
        (keys (handler_to_connection_map w)).
Proof.
  intros Hnone w'. subst w'. rewrite unregister_task_state. simpl.
  rewrite (delete_id _ _ Hnone).
  split; [reflexivity|]. split; [reflexivity|].
  apply calls_since_log. reflexivity.
Qed.

Lemma unregister_unknown_task_witness :
  worker_abilities registered_worker !! "reverse" = None /\
  worker_abilities (unregister_task "reverse" registered_worker).2
    = worker_abilities registered_worker.
Proof.
  split; [reflexivity|].
  exact (proj1 (proj2 (unregister_unknown_task "reverse" registered_worker
                         eq_refl))).
Defined.

Lemma ability_call_abilities c w :
  worker_abilities (ability_call c w).2 =
    match c with
    | Register t f => <[t := f]> (worker_abilities w)
    | Unregister t => delete t (worker_abilities w)
    end.
Proof. destruct c; reflexivity. Qed.

Lemma ability_call_initial_state c w :
  handler_initial_state (ability_call c w).2 =
    mkInitialState (keys (worker_abilities (ability_call c w).2))
      (worker_client_id w).
Proof. destruct c; reflexivity. Qed.

Lemma ability_call_client_id c w :
  worker_client_id (ability_call c w).2 = worker_client_id w.
Proof. destruct c; reflexivity. Qed.

(** X3: two registration calls about different task names commute: made in
    either order they leave the same ability table, and the same set of
    abilities and the same client id in the initial handler state. *)
Theorem ability_calls_commute (c1 c2 : AbilityCall) (w : GearmanWorker) :
  ability_task c1 <> ability_task c2 ->
  worker_abilities (run_ability_calls [c1; c2] w)
    = worker_abilities (run_ability_calls [c2; c1] w) /\
  list_to_set (abilities (handler_initial_state (run_ability_calls [c1; c2] w)))
    =@{gset string}
    list_to_set (abilities (handler_initial_state (run_ability_calls [c2; c1] w))) /\
  client_id (handler_initial_state (run_ability_calls [c1; c2] w))
    = client_id (handler_initial_state (run_ability_calls [c2; c1] w)).
Proof.
  intros Hne. unfold run_ability_calls. cbn [foldl].
  assert (Htab : worker_abilities (ability_call c2 (ability_call c1 w).2).2
                 = worker_abilities (ability_call c1 (ability_call c2 w).2).2).
  { rewrite !ability_call_abilities.
    destruct c1 as [t1 f1|t1], c2 as [t2 f2|t2]; cbn [ability_task] in Hne.
    - apply insert_insert_ne. congruence.
    - apply delete_insert_ne. congruence.
    - symmetry. apply delete_insert_ne. congruence.
    - apply delete_delete. }
  split; [exact Htab|].
  rewrite !ability_call_initial_state, !ability_call_client_id.
  cbn [abilities client_id]. rewrite !keys_dom, Htab.
  split; reflexivity.
Qed.

Lemma ability_calls_commute_witness :
  worker_abilities
    (run_ability_calls [Register "echo" echo; Unregister "fail"] registered_worker)
  = worker_abilities
    (run_ability_calls [Unregister "fail"; Register "echo" echo] registered_worker).
Proof.
  refine (proj1 (ability_calls_commute (Register "echo" echo) (Unregister "fail")
                   registered_worker _)).
  discriminate.
Defined.

(** *** Reports and dispatch on a live or a stale connection *)

Lemma send_job_complete_live j r h w :
  connection_to_handler_map w !! conn j = Some h ->
  send_job_complete j r w = (Ok tt, log [handler_send_job_complete h j r] w).
Proof.
  intros Hh. unfold send_job_complete. py_unfold.
  rewrite (_get_handler_for_job_live j h w Hh). reflexivity.
Qed.

Lemma send_job_complete_stale j r w :
  connection_to_handler_map w !! conn j = None ->
  send_job_complete j r w = (Raise (KeyError (KeyConn (conn j))), w).
Proof.
  intros Hh. unfold send_job_complete. py_unfold.
  rewrite (_get_handler_for_job_stale j w Hh). reflexivity.
Qed.

Lemma send_job_failure_stale j w :
  connection_to_handler_map w !! conn j = None ->
  send_job_failure j w = (Raise (KeyError (KeyConn (conn j))), w).
Proof.
  intros Hh. unfold send_job_failure. py_unfold.
  rewrite (_get_handler_for_job_stale j w Hh). reflexivity.
Qed.

(** The [try] block: the callback found under the task name is called, or
    the lookup raises. *)
Lemma run_callback_outcome invoke j w :
  run_callback invoke j w =
    match worker_abilities w !! task j with
    | Some f => invoke f j w
    | None => (Raise (KeyError (KeyTask (task j))), w)
    end.
Proof.
  destruct (worker_abilities w !! task j) as [f|] eqn:Hf.
  - apply run_callback_registered. exact Hf.
  - apply run_callback_unregistered. exact Hf.
Qed.

(** What [on_job_execute] does once the [try] block has returned [r],
    leaving the worker as [w1]. *)
Lemma on_job_execute_returned invoke j r w w1 :
  run_callback invoke j w = (Ok r, w1) ->
  on_job_execute invoke j w =
    (let '(x, w') := send_job_complete j r w1 in
     match x with Ok _ => (Ok true, w') | Raise e' => (Raise e', w') end).
Proof.
  intros Hrun. unfold on_job_execute, try_except_Exception, on_job_complete.
  py_unfold. rewrite Hrun.
  destruct (send_job_complete j r w1) as [[[]|e'] w']; reflexivity.
Qed.

(** X4: when the callback registered for the task of a job returns [r],
    having left the worker as [w1], and the job's connection is then paired
    with handler [h], [on_job_execute] calls [send_job_complete] on [h] with
    [r], adds nothing else of its own to what the callback has done, and
    returns [True]. *)
Theorem callback_result_reported_as_complete
    (invoke : Callback -> Job -> Py string)
    (current_job : Job) (function_callback : Callback) (r : string)
    (h : Handler) (w w1 : GearmanWorker) :
  worker_abilities w !! task current_job = Some function_callback ->
  invoke function_callback current_job w = (Ok r, w1) ->
  connection_to_handler_map w1 !! conn current_job = Some h ->
  on_job_execute invoke current_job w =
    (Ok true, log [handler_send_job_complete h current_job r] w1).
Proof.
  intros Hf Hr Hh.
  rewrite (on_job_execute_returned invoke current_job r w w1).
  - rewrite (send_job_complete_live current_job r h w1 Hh). reflexivity.
  - rewrite run_callback_outcome, Hf. exact Hr.
Qed.

Lemma callback_result_reported_as_complete_witness :
  on_job_execute sample_invoke progress_job busy_worker =
    (Ok true,
     log [handler_send_job_complete 11%positive progress_job "tea"]
       (log [handler_send_job_data 11%positive progress_job "half";
             handler_send_job_status 11%positive progress_job 1 2]
          busy_worker)) /\
  on_job_execute sample_invoke echo_job registered_worker =
    (Ok true, log [handler_send_job_complete 11%positive echo_job "tea"]
                registered_worker).
Proof.
  split.
  - apply (callback_result_reported_as_complete sample_invoke progress_job
             progress "tea" 11%positive);
      reflexivity.
  - apply (callback_result_reported_as_complete sample_invoke echo_job echo
             "tea" 11%positive);
      reflexivity.
Defined.

(** X5: registration takes effect at the next dispatch.  After
    [register_task] of a callback under a job's task name, whatever was
    registered under it before, the [try] block of [on_job_execute] calls
    that callback, and the callbacks found for other task names are the
    ones found before; after [unregister_task] of the name the lookup in
    the [try] block raises [KeyError] on it and no callback is called. *)
Theorem registration_decides_dispatch
    (invoke : Callback -> Job -> Py string)
    (current_job : Job) (function_callback : Callback) (w : GearmanWorker) :
  let registered := (register_task (task current_job) function_callback w).2 in
  let withdrawn := (unregister_task (task current_job) registered).2 in
  run_callback invoke current_job registered
    = invoke function_callback current_job registered /\
  (forall other : string,
     other <> task current_job ->
     (lookup_callback other registered).1 = (lookup_callback other w).1) /\
  run_callback invoke current_job withdrawn
    = (Raise (KeyError (KeyTask (task current_job))), withdrawn).
Proof.
  intros registered withdrawn. split; [|split].
  - apply run_callback_registered. subst registered.
    rewrite register_task_state. simpl. apply lookup_insert_eq.
  - intros other Hne. unfold lookup_callback. subst registered.
    rewrite register_task_state. simpl.
    rewrite lookup_insert_ne by congruence.
    destruct (worker_abilities w !! other); reflexivity.
  - apply run_callback_unregistered. subst withdrawn.
    rewrite unregister_task_state. simpl. apply lookup_delete_eq.
Qed.

(** X6: dispatch of a job whose connection is absent from
    [connection_to_handler_map] once the [try] block is done.  Unless the
    block raised outside the [Exception] hierarchy, [on_job_execute] raises
    [KeyError] on the connection: the report it attempts, after the callback
    returned or inside the [except] branch, fails and is not guarded;
    [on_job_execute] sends nothing and leaves the worker as the [try] block
    left it. *)
Theorem dispatch_on_stale_connection_raises_KeyError
    (invoke : Callback -> Job -> Py string)
    (current_job : Job) (w : GearmanWorker) :
  connection_to_handler_map (run_callback invoke current_job w).2
    !! conn current_job = None ->
  (forall e : PyExc,
     (run_callback invoke current_job w).1 = Raise e ->
     isinstance_Exception e = true) ->
  on_job_execute invoke current_job w =
    (Raise (KeyError (KeyConn (conn current_job))),
     (run_callback invoke current_job w).2).
Proof.
  intros Hstale Hexc.
  destruct (run_callback invoke current_job w) as [[r|e] w1] eqn:Hrun;
    simpl in Hstale, Hexc |- *.
  - rewrite (on_job_execute_returned invoke current_job r w w1 Hrun).
    rewrite (send_job_complete_stale current_job r w1 Hstale). reflexivity.
  - rewrite (on_job_execute_raised invoke current_job e w w1 Hrun).
    rewrite (Hexc e eq_refl).
    rewrite (send_job_failure_stale current_job w1 Hstale). reflexivity.
Qed.

Lemma dispatch_on_stale_connection_raises_KeyError_witness :
  on_job_execute sample_invoke stale_job registered_worker =
    (Raise (KeyError (KeyConn 3%positive)), registered_worker).
Proof.
  apply (dispatch_on_stale_connection_raises_KeyError sample_invoke stale_job
           registered_worker); [reflexivity|].
  intros e He. vm_compute in He. injection He as <-. reflexivity.
Defined.

Lemma log_nil w : log [] w = w.
Proof. destruct w; unfold log; simpl. rewrite app_nil_r. reflexivity. Qed.

Lemma no_call_added j w1 :
  exists l : list Call,
    w1 = log l w1 /\ length l <= 1 /\
    (forall c : Call,
       c ∈ l ->
       exists h : Handler,
         connection_to_handler_map w1 !! conn j = Some h /\
         report_target c = Some (h, j)).
Proof.
  exists []. rewrite log_nil. split; [reflexivity|].
  split; [simpl; lia|]. intros c Hc. inversion Hc.
Qed.

Lemma on_job_execute_log invoke j w :
  exists l : list Call,
    (on_job_execute invoke j w).2 = log l (run_callback invoke j w).2 /\
    length l <= 1 /\
    (forall c : Call,
       c ∈ l ->
       exists h : Handler,
         connection_to_handler_map (run_callback invoke j w).2 !! conn j
           = Some h /\
         report_target c = Some (h, j)).
Proof.
  destruct (run_callback invoke j w) as [[r|e] w1] eqn:Hrun; cbn [snd].
  - rewrite (on_job_execute_returned invoke j r w w1 Hrun).
    destruct (connection_to_handler_map w1 !! conn j) as [h|] eqn:Hh.
    + rewrite (send_job_complete_live j r h w1 Hh).
      eexists. split; [reflexivity|]. split; [simpl; lia|].
      intros c ->%list_elem_of_singleton. exists h. split; reflexivity.
    + rewrite (send_job_complete_stale j r w1 Hh). cbn [snd].
      rewrite <- Hh. apply no_call_added.
  - rewrite (on_job_execute_raised invoke j e w w1 Hrun).
    destruct (isinstance_Exception e);
      [|cbn [snd];
        destruct (no_call_added j w1) as (l & Hl & Hlen & Hc);
        exists l; auto].
    destruct (connection_to_handler_map w1 !! conn j) as [h|] eqn:Hh.
    + rewrite (send_job_failure_live j h w1 Hh).
      eexists. split; [reflexivity|]. split; [simpl; lia|].
      intros c ->%list_elem_of_singleton. exists h. split; reflexivity.
    + rewrite (send_job_failure_stale j w1 Hh). cbn [snd].
      rewrite <- Hh. apply no_call_added.
Qed.

(** X7: in every state, for every job and whatever the callback does,
    [on_job_execute] itself changes nothing of the worker the [try] block
    left but the call log, to which it adds at most one call; that call is a
    report for this very job on the handler then paired with the job's
    connection.  In particular [on_job_execute] itself never touches the
    Job Lock and never adds both a completion and a failure. *)
Theorem on_job_execute_sends_at_most_one_report
    (invoke : Callback -> Job -> Py string)
    (current_job : Job) (w : GearmanWorker) :
  exists l : list Call,
    (on_job_execute invoke current_job w).2
      = log l (run_callback invoke current_job w).2 /\
    length l <= 1 /\
    (forall c : Call,
       c ∈ l ->
       exists h : Handler,
         connection_to_handler_map (run_callback invoke current_job w).2
           !! conn current_job = Some h /\
         report_target c = Some (h, current_job)).
Proof. apply on_job_execute_log. Qed.

Lemma send_report_live r j h w :
  connection_to_handler_map w !! conn j = Some h ->
  exists l : list Call,
    send_report r j w = (Ok tt, log l w) /\
    l <> [] /\
    Forall (fun c => report_target c = Some (h, j)) l.
Proof.
  intros Hh.
  destruct r; cbn [send_report];
    unfold send_job_status, send_job_complete, send_job_failure,
      send_job_exception, send_job_data, send_job_warning; py_unfold;
    rewrite (_get_handler_for_job_live j h w Hh); cbn beta iota;
    rewrite ?log_log;
    (eexists; split; [reflexivity|]; split; [discriminate|];
     repeat constructor).
Qed.

(** X8: a report for a job whose connection is paired with handler [h]
    never raises, changes nothing of the worker but the call log, and every
    call it makes, at least one, is made on [h] and for this job: whichever
    of the six reporting methods is used, no other handler hears of it. *)
Theorem live_job_report_reaches_owning_handler
    (r : Report) (current_job : Job) (h : Handler) (w : GearmanWorker) :
  connection_to_handler_map w !! conn current_job = Some h ->
  exists l : list Call,
    send_report r current_job w = (Ok tt, log l w) /\
    l <> [] /\
    Forall (fun c => report_target c = Some (h, current_job)) l.
Proof. apply send_report_live. Qed.

Lemma live_job_report_reaches_owning_handler_witness :
  exists l : list Call,
    send_report (ReportStatus 1 2) echo_job registered_worker
      = (Ok tt, log l registered_worker) /\
    l <> [] /\
    Forall (fun c => report_target c = Some (11%positive, echo_job)) l.
Proof.
  apply (live_job_report_reaches_owning_handler (ReportStatus 1 2) echo_job
           11%positive registered_worker).
  reflexivity.
Defined.

(** X9: with the two dictionaries pairing the same handlers and connections,
    [create_job] for a registered handler yields a job that carries the
    handler's connection and the four given fields, and
    [_get_handler_for_job] leads from that job back to the same handler. *)
Theorem created_job_belongs_to_its_handler
    (h : Handler) (c : Connection) (hd tk uq dt : string) (w : GearmanWorker) :
  maps_paired w ->
  handler_to_connection_map w !! h = Some c ->
  create_job h hd tk uq dt w = NewJob (mkJob c hd tk uq dt) /\
  _get_handler_for_job (mkJob c hd tk uq dt) w = (Ok h, w).
Proof.
  intros Hpaired Hh. split.
  - unfold create_job. rewrite Hh. reflexivity.
  - apply _get_handler_for_job_live. simpl. apply Hpaired. exact Hh.
Qed.

Lemma two_server_worker_paired : maps_paired two_server_worker.
Proof.
  intros h c. unfold two_server_worker. cbn [handler_to_connection_map
    connection_to_handler_map].
  split; intros Hl.
  - apply lookup_insert_Some in Hl as [[<- <-]|[_ Hl]]; [reflexivity|].
    apply lookup_insert_Some in Hl as [[<- <-]|[_ Hl]]; [reflexivity|].
    rewrite lookup_empty in Hl. discriminate.
  - apply lookup_insert_Some in Hl as [[<- <-]|[_ Hl]]; [reflexivity|].
    apply lookup_insert_Some in Hl as [[<- <-]|[_ Hl]]; [reflexivity|].
    rewrite lookup_empty in Hl. discriminate.
Defined.

Lemma created_job_belongs_to_its_handler_witness :
  create_job 12%positive "H:7" "echo" "" "tea" two_server_worker
    = NewJob (mkJob 2%positive "H:7" "echo" "" "tea") /\
  _get_handler_for_job (mkJob 2%positive "H:7" "echo" "" "tea") two_server_worker
    = (Ok 12%positive, two_server_worker).
Proof.
  apply (created_job_belongs_to_its_handler 12%positive 2%positive);
    [exact two_server_worker_paired | reflexivity].
Defined.

(** *** More on the Job Lock *)

Lemma with_job_lock_same w :
  with_job_lock (command_handler_holding_job_lock w) w = w.
Proof. destruct w; reflexivity. Qed.

(** X10: with the Job Lock free, a registered handler that asks for it gets
    it: [check_job_lock] then answers [True] for this handler and [False]
    for every other one, a second request by the holder itself is refused
    (the lock is not re-entrant), and the holder's release is granted and
    leaves the worker exactly as it was before the lock was taken. *)
Theorem job_lock_acquire_release (h : Handler) (w : GearmanWorker) :
  is_Some (handler_to_connection_map w !! h) ->
  command_handler_holding_job_lock w = None ->
  let w1 := with_job_lock (Some h) w in
  set_job_lock h true w = (Ok true, w1) /\
  check_job_lock h w1 = true /\
  (forall h' : Handler, h' <> h -> check_job_lock h' w1 = false) /\
  set_job_lock h true w1 = (Ok false, w1) /\
  set_job_lock h false w1 = (Ok true, w).
Proof.
  intros Hh Hfree w1.
  assert (Hh1 : is_Some (handler_to_connection_map w1 !! h)) by exact Hh.
  split; [|split; [|split; [|split]]].
  - rewrite set_job_lock_cases, bool_decide_eq_true_2 by exact Hh.
    rewrite Hfree. reflexivity.
  - apply bool_decide_eq_true_2. reflexivity.
  - intros h' Hne. apply bool_decide_eq_false_2. simpl. congruence.
  - rewrite set_job_lock_cases, bool_decide_eq_true_2 by exact Hh1.
    reflexivity.
  - rewrite set_job_lock_cases, bool_decide_eq_true_2 by exact Hh1.
    rewrite bool_decide_eq_true_2 by reflexivity.
    f_equal. rewrite <- (with_job_lock_same w), Hfree. reflexivity.
Qed.

Lemma job_lock_acquire_release_witness :
  set_job_lock 12%positive true two_server_worker
    = (Ok true, with_job_lock (Some 12%positive) two_server_worker) /\
  set_job_lock 12%positive false
    (with_job_lock (Some 12%positive) two_server_worker)
    = (Ok true, two_server_worker).
Proof.
  assert (Hh : is_Some (handler_to_connection_map two_server_worker !! 12%positive))
    by (exists 2%positive; reflexivity).
  pose proof (job_lock_acquire_release 12%positive two_server_worker Hh eq_refl)
    as (H1 & _ & _ & _ & H2).
  split; [exact H1 | exact H2].
Defined.

Lemma set_job_lock_unknown h lock w :
  handler_to_connection_map w !! h = None ->
  set_job_lock h lock w = (Ok false, w).
Proof. unfold set_job_lock. intros ->. reflexivity. Qed.

(** X11: once the recorded holder is no longer a key of
    [handler_to_connection_map], no run of [set_job_lock] calls, by any
    handlers and with any flags, is ever granted or changes the worker:
    the holder's own release is refused because it is unknown, and every
    request by others because the lock is held. *)
Theorem job_lock_stuck_when_holder_unknown
    (h : Handler) (w : GearmanWorker)
    (reqs : list (Handler * bool)) (granted : gset Handler) :
  command_handler_holding_job_lock w = Some h ->
  handler_to_connection_map w !! h = None ->
  run_set_job_lock reqs w granted = (w, granted) /\
  Forall (fun req => set_job_lock req.1 req.2 w = (Ok false, w)) reqs.
Proof.
  intros Hheld Hunknown.
  assert (Hrefused : forall h' lock, set_job_lock h' lock w = (Ok false, w)).
  { intros h' lock. rewrite set_job_lock_cases.
    case_bool_decide as Hk; [|reflexivity].
    destruct lock.
    - rewrite Hheld. reflexivity.
    - rewrite bool_decide_eq_false_2; [reflexivity|].
      rewrite Hheld. intros [= ->]. rewrite Hunknown in Hk.
      destruct Hk as [? ?]. discriminate. }
  split.
  - induction reqs as [|[h' lock] rest IH]; [reflexivity|].
    cbn [run_set_job_lock]. rewrite Hrefused. exact IH.
  - apply Forall_forall. intros [h' lock] _. apply Hrefused.
Qed.

Lemma job_lock_stuck_when_holder_unknown_witness :
  run_set_job_lock [(11, false); (12, true); (13, false)]%positive
    (with_job_lock (Some 13%positive) two_server_worker) ∅
  = (with_job_lock (Some 13%positive) two_server_worker, ∅).
Proof.
  exact (proj1 (job_lock_stuck_when_holder_unknown 13%positive
                  (with_job_lock (Some 13%positive) two_server_worker)
                  [(11, false); (12, true); (13, false)]%positive ∅
                  eq_refl eq_refl)).
Defined.

(** *** Connection failure and the lock of another handler *)

Lemma set_job_lock_result h lock w :
  exists b : bool, (set_job_lock h lock w).1 = Ok b.
Proof.
  rewrite set_job_lock_cases.
  case_bool_decide; [|exists false; reflexivity].
  destruct lock.
  - destruct (command_handler_holding_job_lock w); eexists; reflexivity.
  - case_bool_decide; eexists; reflexivity.
Qed.

(** [handle_error] is the manager's teardown, run after the unlock attempt
    of the handler found for the connection, if any. *)
Lemma handle_error_cases c w :
  handle_error c w =
    super_handle_error c
      (match connection_to_handler_map w !! c with
       | Some h => (set_job_lock h false w).2
       | None => w
       end).
Proof.
  unfold handle_error. py_unfold.
  destruct (connection_to_handler_map w !! c) as [h|]; [|reflexivity].
  destruct (set_job_lock_result h false w) as [b Hb].
  destruct (set_job_lock h false w) as [r w1]. simpl in Hb. subst r.
  reflexivity.
Qed.

(** X12: an error on a connection whose handler does not hold the Job Lock,
    or that has no handler, makes [handle_error] do nothing of its own: it
    amounts to the manager's teardown alone, on the untouched worker, so a
    lock held by another handler stays with that handler. *)
Theorem handle_error_keeps_foreign_job_lock
    (current_connection : Connection) (w : GearmanWorker) :
  (forall h : Handler,
     connection_to_handler_map w !! current_connection = Some h ->
     command_handler_holding_job_lock w <> Some h) ->
  handle_error current_connection w = super_handle_error current_connection w /\
  command_handler_holding_job_lock (handle_error current_connection w).2
    = command_handler_holding_job_lock w.
Proof.
  intros Hforeign.
  assert (Herr : handle_error current_connection w
                 = super_handle_error current_connection w).
  { rewrite handle_error_cases.
    destruct (connection_to_handler_map w !! current_connection) as [h|];
      [|reflexivity].
    rewrite set_job_lock_cases.
    case_bool_decide; [|reflexivity].
    rewrite bool_decide_eq_false_2 by (apply Hforeign; reflexivity).
    reflexivity. }
  split; [exact Herr|]. rewrite Herr. reflexivity.
Qed.

Lemma handle_error_keeps_foreign_job_lock_witness :
  command_handler_holding_job_lock
    (handle_error 2%positive
       (with_job_lock (Some 11%positive) two_server_worker)).2
  = Some 11%positive.
Proof.
  refine (proj2 (handle_error_keeps_foreign_job_lock 2%positive
                   (with_job_lock (Some 11%positive) two_server_worker) _)).
  intros h Hh. vm_compute in Hh. injection Hh as <-. discriminate.
Defined.

(** *** Invariants over runs of method calls *)

Lemma send_report_log r j w :
  exists l : list Call, (send_report r j w).2 = log l w.
Proof.
  destruct (connection_to_handler_map w !! conn j) as [h|] eqn:Hh.
  - destruct (send_report_live r j h w Hh) as (l & -> & _). exists l.
    reflexivity.
  - rewrite (send_report_stale r j w Hh). exists [].
    destruct w; unfold log; simpl. rewrite app_nil_r. reflexivity.
Qed.

(** After [set_job_lock] the worker is as before, but for the holder. *)
Lemma set_job_lock_state h lock w :
  exists o : option Handler,
    (set_job_lock h lock w).2 = with_job_lock o w /\
    (o = command_handler_holding_job_lock w \/
     o = None \/
     (o = Some h /\ is_Some (handler_to_connection_map w !! h))).
Proof.
  rewrite set_job_lock_cases. case_bool_decide as Hk.
  - destruct lock.
    + destruct (command_handler_holding_job_lock w) as [h0|] eqn:Hl.
      * exists (Some h0). rewrite <- Hl, with_job_lock_same. auto.
      * exists (Some h). auto.
    + case_bool_decide.
      * exists None. auto.
      * exists (command_handler_holding_job_lock w).
        rewrite with_job_lock_same. auto.
  - exists (command_handler_holding_job_lock w).
    rewrite with_job_lock_same. auto.
Qed.

(** The worker a method leaves does not depend on how its return value is
    wrapped. *)
Lemma bind_mret_state {A B} (m : Py A) (g : A -> B) w :
  ((x ← m; mret (g x)) w).2 = (m w).2.
Proof. py_unfold. destruct (m w) as [[a|e] w']; reflexivity. Qed.

Section Kept.

(** A property of the worker that the methods other than the dispatch keep,
    and that does not depend on the call log. *)
Variable Inv : GearmanWorker -> Prop.
Hypothesis Inv_register : forall t f w, Inv w -> Inv (register_task t f w).2.
Hypothesis Inv_unregister : forall t w, Inv w -> Inv (unregister_task t w).2.
Hypothesis Inv_client_id : forall c w, Inv w -> Inv (set_client_id c w).2.
Hypothesis Inv_lock : forall h lock w, Inv w -> Inv (set_job_lock h lock w).2.
Hypothesis Inv_log : forall l w, Inv w -> Inv (log l w).
Hypothesis Inv_error : forall c w, Inv w -> Inv (handle_error c w).2.

Lemma kept_by_send_report r j w : Inv w -> Inv (send_report r j w).2.
Proof.
  intros Hw. destruct (send_report_log r j w) as (l & ->).
  apply Inv_log. exact Hw.
Qed.

(** The dispatch keeps it when the callbacks do. *)
Lemma kept_by_on_job_execute invoke :
  (forall f j w, Inv w -> Inv (invoke f j w).2) ->
  forall j w, Inv w -> Inv (on_job_execute invoke j w).2.
Proof.
  intros Hinvoke j w Hw.
  destruct (on_job_execute_log invoke j w) as (l & -> & _).
  apply Inv_log. rewrite run_callback_outcome.
  destruct (worker_abilities w !! task j) as [f|]; [|exact Hw].
  apply Hinvoke. exact Hw.
Qed.

Lemma kept_by_method_outcome dispatch :
  (forall j w, Inv w -> Inv (dispatch j w).2) ->
  forall m w, Inv w -> Inv (method_outcome dispatch m w).2.
Proof.
  intros Hdispatch m w Hw.
  destruct m as [t f|t|c|h lock|r j|j|c]; cbn [method_outcome].
  - rewrite bind_mret_state. apply Inv_register. exact Hw.
  - rewrite bind_mret_state. apply Inv_unregister. exact Hw.
  - rewrite bind_mret_state. apply Inv_client_id. exact Hw.
  - rewrite bind_mret_state. apply Inv_lock. exact Hw.
  - rewrite (bind_mret_state (send_report r j) (fun _ => PyNone)).
    apply kept_by_send_report. exact Hw.
  - rewrite bind_mret_state. apply Hdispatch. exact Hw.
  - rewrite (bind_mret_state (handle_error c) (fun _ => PyNone)).
    apply Inv_error. exact Hw.
Qed.

Lemma kept_by_run_script dispatch :
  (forall j w, Inv w -> Inv (dispatch j w).2) ->
  forall s w, Inv w -> Inv (run_script dispatch s w).2.
Proof.
  intros Hdispatch.
  induction s as [r|e|k IH|m k IH]; intros w Hw; cbn [run_script].
  - exact Hw.
  - exact Hw.
  - apply IH. exact Hw.
  - pose proof (kept_by_method_outcome dispatch Hdispatch m w Hw) as Hm.
    destruct (method_outcome dispatch m w) as [out w']. apply IH. exact Hm.
Qed.

(** Callbacks that use the worker through its methods keep it, however deep
    their dispatches nest. *)
Lemma kept_by_scripted body depth :
  forall f j w, Inv w -> Inv (scripted body depth f j w).2.
Proof.
  induction depth as [|d IH]; intros f j w Hw; cbn [scripted].
  - apply kept_by_run_script; [|exact Hw]. intros j' w' Hw'. exact Hw'.
  - apply kept_by_run_script; [|exact Hw].
    apply kept_by_on_job_execute. exact IH.
Qed.

Lemma kept_by_after_methods invoke :
  (forall f j w, Inv w -> Inv (invoke f j w).2) ->
  forall ms w, Inv w -> Inv (after_methods invoke ms w).
Proof.
  intros Hinvoke ms w Hw.
  induction ms as [|m ms IH] using rev_ind; [exact Hw|].
  unfold after_methods in *. rewrite foldl_app. cbn [foldl].
  destruct m as [t f|t|c|h lock|r j|j|c]; cbn [after_method].
  - apply Inv_register, IH.
  - apply Inv_unregister, IH.
  - apply Inv_client_id, IH.
  - apply Inv_lock, IH.
  - apply kept_by_send_report, IH.
  - apply kept_by_on_job_execute; [exact Hinvoke | exact IH].
  - apply Inv_error, IH.
Qed.

End Kept.

(** X13: every method of worker.py that changes the ability table or the
    client id refreshes the initial handler state, and no other method
    touches any of the three.  Hence from construction on, after any run of
    method calls, returned or raised, with callbacks that use the worker
    through these methods, the state handed to newly connected handlers
    lists exactly the keys of [worker_abilities] and carries
    [worker_client_id]. *)
Theorem initial_state_always_in_sync
    (body : Callback -> Job -> Script) (depth : nat)
    (ms : list Method) (base : GearmanWorker) :
  let w := after_methods (scripted body depth) ms (__init__ base) in
  handler_initial_state w =
    mkInitialState (keys (worker_abilities w)) (worker_client_id w).
Proof.
  set (Inv := fun w : GearmanWorker =>
         handler_initial_state w =
           mkInitialState (keys (worker_abilities w)) (worker_client_id w)).
  assert (Hlock : forall h lock w, Inv w -> Inv (set_job_lock h lock w).2).
  { intros h lock w Hw.
    destruct (set_job_lock_state h lock w) as (o & -> & _). exact Hw. }
  assert (Herror : forall c w, Inv w -> Inv (handle_error c w).2).
  { intros c w Hw. rewrite handle_error_cases.
    destruct (connection_to_handler_map w !! c) as [h|]; [|exact Hw].
    destruct (set_job_lock_state h false w) as (o & -> & _). exact Hw. }
  apply (kept_by_after_methods Inv); try (intros; reflexivity).
  - exact Hlock.
  - intros l w Hw. exact Hw.
  - exact Herror.
  - apply (kept_by_scripted Inv); try (intros; reflexivity).
    + exact Hlock.
    + intros l w Hw. exact Hw.
    + exact Herror.
Qed.

Lemma super_handle_error_invariant c w :
  maps_paired w ->
  job_lock_holder_known w ->
  (forall h : Handler,
     connection_to_handler_map w !! c = Some h ->
     command_handler_holding_job_lock w <> Some h) ->
  maps_paired (super_handle_error c w).2 /\
  job_lock_holder_known (super_handle_error c w).2.
Proof.
  intros Hp Hk Hfree. unfold maps_paired, job_lock_holder_known.
  cbn [super_handle_error modify snd log with_connected with_maps
       handler_to_connection_map connection_to_handler_map
       command_handler_holding_job_lock].
  destruct (connection_to_handler_map w !! c) as [h|] eqn:Hc.
  - split.
    + intros h0 c0. rewrite !lookup_delete_Some. split.
      * intros [Hne Hl]. apply Hp in Hl. split; [|exact Hl].
        intros <-. rewrite Hc in Hl. congruence.
      * intros [Hne Hl]. split; [|apply Hp; exact Hl].
        intros <-. apply Hp in Hc, Hl. congruence.
    + intros h0 Hh0. rewrite lookup_delete_is_Some. split.
      * intros <-. exact (Hfree h eq_refl Hh0).
      * apply Hk. exact Hh0.
  - rewrite (delete_id _ _ Hc). split; [exact Hp | exact Hk].
Qed.

Lemma set_job_lock_invariant h lock w :
  maps_paired w /\ job_lock_holder_known w ->
  maps_paired (set_job_lock h lock w).2 /\
  job_lock_holder_known (set_job_lock h lock w).2.
Proof.
  intros [Hp Hk].
  destruct (set_job_lock_state h lock w) as (o & -> & Ho).
  split; [exact Hp|]. intros h0 Hh0. simpl in Hh0. subst o.
  destruct Ho as [Ho|[Ho|[Ho Hknown]]].
  - apply Hk. symmetry. exact Ho.
  - discriminate.
  - injection Ho as ->. exact Hknown.
Qed.

Lemma handle_error_invariant c w :
  maps_paired w /\ job_lock_holder_known w ->
  maps_paired (handle_error c w).2 /\ job_lock_holder_known (handle_error c w).2.
Proof.
  intros [Hp Hk]. rewrite handle_error_cases.
  destruct (connection_to_handler_map w !! c) as [h|] eqn:Hc.
  - destruct (set_job_lock_invariant h false w (conj Hp Hk)) as [Hp1 Hk1].
    apply super_handle_error_invariant; [exact Hp1 | exact Hk1 |].
    intros h0 Hh0.
    assert (Heq : h0 = h).
    { destruct (set_job_lock_state h false w) as (o & Hst & _).
      rewrite Hst in Hh0. simpl in Hh0. congruence. }
    subst h0. rewrite set_job_lock_cases.
    rewrite bool_decide_eq_true_2 by (exists c; apply Hp; exact Hc).
    case_bool_decide; simpl; congruence.
  - apply super_handle_error_invariant; [exact Hp | exact Hk |].
    intros h0 Hh0. congruence.
Qed.

(** X14: if the manager hands over two dictionaries that pair the same
    handlers and connections, and the holder of the Job Lock, if any, is one
    of these handlers, both remain true after any run of method calls,
    connection errors included (the manager's teardown being the one modelled
    above), with callbacks that use the worker through these methods: the
    lock is never left with a handler the worker has dropped. *)
Theorem job_lock_holder_always_known
    (body : Callback -> Job -> Script) (depth : nat)
    (ms : list Method) (w0 : GearmanWorker) :
  maps_paired w0 ->
  job_lock_holder_known w0 ->
  maps_paired (after_methods (scripted body depth) ms w0) /\
  job_lock_holder_known (after_methods (scripted body depth) ms w0).
Proof.
  intros Hp Hk.
  set (Inv := fun w : GearmanWorker =>
         maps_paired w /\ job_lock_holder_known w).
  apply (kept_by_after_methods Inv); try (intros ? ? ? Hw; exact Hw);
    try (intros ? ? Hw; exact Hw).
  - intros h lock w Hw. apply set_job_lock_invariant. exact Hw.
  - intros c w Hw. apply handle_error_invariant. exact Hw.
  - apply (kept_by_scripted Inv); try (intros ? ? ? Hw; exact Hw);
      try (intros ? ? Hw; exact Hw).
    + intros h lock w Hw. apply set_job_lock_invariant. exact Hw.
    + intros c w Hw. apply handle_error_invariant. exact Hw.
  - exact (conj Hp Hk).
Qed.

Lemma job_lock_holder_always_known_witness :
  job_lock_holder_known
    (after_methods sample_invoke
       [call_set_job_lock 11%positive true; call_on_job_execute progress_job;
        call_on_job_execute moody_job; call_handle_error 1%positive;
        call_set_job_lock 12%positive true]
       busy_worker).
Proof.
  refine (proj2 (job_lock_holder_always_known sample_body 4 _ busy_worker
                   two_server_worker_paired _)).
  intros h Hh. discriminate Hh.
Defined.

(** *** Gathering connections and the work loop *)

Section Gathering.

Variable shuffle : list Connection -> list Connection.
Variable attempt_connect : Connection -> Py unit.
Variable poll_connections_until_stopped :
  list Connection -> (bool -> bool) -> Py bool.

(** A connection attempt returns normally. *)
Hypothesis attempt_connect_returns :
  forall c w, exists w', attempt_connect c w = (Ok tt, w').

Lemma collect_connected_returns cs :
  forall acc w, exists out w',
    collect_connected attempt_connect cs acc w = (Ok out, w').
Proof.
  induction cs as [|c cs IH]; intros acc w.
  - exists acc, w. reflexivity.
  - destruct (attempt_connect_returns c w) as (w1 & Hatt).
    cbn [collect_connected]. unfold is_connected. py_unfold. rewrite Hatt.
    cbn beta iota. apply IH.
Qed.

Lemma get_worker_connections_returns w :
  exists out w',
    get_worker_connections shuffle attempt_connect w = (Ok out, w').
Proof.
  unfold get_worker_connections. py_unfold. cbn beta iota.
  apply collect_connected_returns.
Qed.

(** While every poll asks to go on, the loop uses up any fuel. *)
Lemma work_loop_goes_on :
  (forall cs w, exists w',
     poll_connections_until_stopped cs after_poll w = (Ok true, w')) ->
  forall fuel w,
    work_loop shuffle attempt_connect poll_connections_until_stopped fuel w
    = None.
Proof.
  intros Hpoll. induction fuel as [|fuel IH]; intros w; [reflexivity|].
  cbn [work_loop]. py_unfold.
  destruct (get_worker_connections_returns w) as (out & w1 & ->).
  destruct (Hpoll out w1) as (w2 & ->). apply IH.
Qed.

(** A connection attempt, moreover, disconnects nothing. *)
Hypothesis attempt_connect_grows :
  forall c w w', attempt_connect c w = (Ok tt, w') ->
                 connected w ⊆ connected w'.

Lemma collect_connected_spec cs :
  forall acc w, exists out w',
    collect_connected attempt_connect cs acc w = (Ok (acc ++ out), w') /\
    out `sublist_of` cs /\
    connected w ⊆ connected w' /\
    (forall c, c ∈ cs -> c ∈ connected w -> c ∈ out) /\
    (forall c, c ∈ out -> c ∈ connected w').
Proof.
  induction cs as [|c cs IH]; intros acc w.
  - exists [], w. rewrite app_nil_r. split; [reflexivity|].
    split; [constructor|]. split; [reflexivity|].
    split; intros c Hc; inversion Hc.
  - destruct (attempt_connect_returns c w) as (w1 & Hatt).
    pose proof (attempt_connect_grows c w w1 Hatt) as Hsub.
    cbn [collect_connected]. unfold is_connected. py_unfold. rewrite Hatt.
    cbn beta iota.
    destruct (IH (if bool_decide (c ∈ connected w1) then acc ++ [c] else acc) w1)
      as (out & w' & Hrun & Hsl & Hsub' & Hin & Hout).
    rewrite Hrun. case_bool_decide as Hc.
    + exists (c :: out), w'. rewrite <- app_assoc. split; [reflexivity|].
      split; [constructor; exact Hsl|].
      split; [etrans; eassumption|]. split.
      * intros c0 [->|Hc0]%elem_of_cons Hlive; [left|].
        right. apply Hin; [exact Hc0 | apply Hsub; exact Hlive].
      * intros c0 [->|Hc0]%elem_of_cons; [apply Hsub'; exact Hc|].
        apply Hout. exact Hc0.
    + exists out, w'. split; [reflexivity|].
      split; [constructor; exact Hsl|].
      split; [etrans; eassumption|]. split.
      * intros c0 [->|Hc0]%elem_of_cons Hlive;
          [exfalso; apply Hc, Hsub; exact Hlive|].
        apply Hin; [exact Hc0 | apply Hsub; exact Hlive].
      * exact Hout.
Qed.

(** [random.shuffle] reorders the list it is given. *)
Hypothesis shuffle_permutes : forall l, shuffle l ≡ₚ l.

Lemma get_worker_connections_spec w :
  exists out w',
    get_worker_connections shuffle attempt_connect w = (Ok out, w') /\
    out `sublist_of` shuffle (connection_list w) /\
    (forall c, c ∈ connection_list w -> c ∈ connected w -> c ∈ out) /\
    (forall c, c ∈ out -> c ∈ connection_list w /\ c ∈ connected w').
Proof.
  unfold get_worker_connections. py_unfold. cbn beta iota.
  destruct (collect_connected_spec (shuffle (connection_list w)) []
              (with_randomized_connections
                 (Some (shuffle (connection_list w))) w))
    as (out & w' & Hrun & Hsl & _ & Hin & Hout).
  exists out, w'. split; [exact Hrun|]. split; [exact Hsl|]. split.
  - intros c Hc Hlive. apply Hin; [|exact Hlive].
    rewrite (shuffle_permutes (connection_list w)). exact Hc.
  - intros c Hc. split; [|apply Hout; exact Hc].
    rewrite <- (shuffle_permutes (connection_list w)).
    exact (elem_of_sublist _ _ _ Hc Hsl).
Qed.

End Gathering.

(** X15: when [random.shuffle] reorders the list it is given and connection
    attempts return normally and disconnect nothing,
    [get_worker_connections] returns normally; what it returns is a
    sub-sequence of the shuffled [connection_list], contains every
    connection of [connection_list] that was connected beforehand, and
    holds only connections of [connection_list] that are connected when it
    returns. *)
Theorem get_worker_connections_returns_live_connections
    (shuffle : list Connection -> list Connection)
    (attempt_connect : Connection -> Py unit) (w : GearmanWorker) :
  (forall l, shuffle l ≡ₚ l) ->
  (forall c w, exists w', attempt_connect c w = (Ok tt, w')) ->
  (forall c w w', attempt_connect c w = (Ok tt, w') ->
                  connected w ⊆ connected w') ->
  exists out w',
    get_worker_connections shuffle attempt_connect w = (Ok out, w') /\
    out `sublist_of` shuffle (connection_list w) /\
    (forall c, c ∈ connection_list w -> c ∈ connected w -> c ∈ out) /\
    (forall c, c ∈ out -> c ∈ connection_list w /\ c ∈ connected w').
Proof.
  intros Hperm Hret Hgrow. apply get_worker_connections_spec; assumption.
Qed.

Lemma no_reconnect_returns :
  forall c w, exists w', no_reconnect c w = (Ok tt, w').
Proof. intros c w. exists w. reflexivity. Defined.

Lemma no_reconnect_grows :
  forall c w w', no_reconnect c w = (Ok tt, w') -> connected w ⊆ connected w'.
Proof. intros c w w' [= <-]. reflexivity. Defined.

Lemma get_worker_connections_returns_live_connections_witness :
  exists out w',
    get_worker_connections keep_order no_reconnect two_server_worker
      = (Ok out, w') /\
    out `sublist_of` keep_order (connection_list two_server_worker) /\
    (forall c, c ∈ connection_list two_server_worker ->
               c ∈ connected two_server_worker -> c ∈ out) /\
    (forall c, c ∈ out ->
               c ∈ connection_list two_server_worker /\ c ∈ connected w').
Proof.
  apply (get_worker_connections_returns_live_connections keep_order
           no_reconnect two_server_worker).
  - intros l. reflexivity.
  - exact no_reconnect_returns.
  - exact no_reconnect_grows.
Defined.

(** X16: [work] can only be left through a poll: as long as connection
    attempts return normally and every poll, given [after_poll] as its
    continuation test, asks to go on, [work] does not return, however many
    rounds it is given. *)
Theorem work_does_not_return_while_polls_go_on
    (shuffle : list Connection -> list Connection)
    (attempt_connect : Connection -> Py unit)
    (poll_connections_until_stopped :
       list Connection -> (bool -> bool) -> Py bool)
    (fuel : nat) (w : GearmanWorker) :
  (forall c w, exists w', attempt_connect c w = (Ok tt, w')) ->
  (forall cs w, exists w',
     poll_connections_until_stopped cs after_poll w = (Ok true, w')) ->
  work shuffle attempt_connect poll_connections_until_stopped fuel w = None.
Proof.
  intros Hret Hpoll. unfold work.
  rewrite (work_loop_goes_on shuffle attempt_connect
             poll_connections_until_stopped Hret Hpoll).
  reflexivity.
Qed.

Lemma work_does_not_return_while_polls_go_on_witness :
  work keep_order no_reconnect never_stop 25 two_server_worker = None.
Proof.
  apply (work_does_not_return_while_polls_go_on keep_order no_reconnect
           never_stop 25 two_server_worker no_reconnect_returns).
  intros cs w. exists w. reflexivity.
Defined.

Lemma work_loop_exit shuffle attempt_connect poll fuel :
  forall w r w',
    work_loop shuffle attempt_connect poll fuel w = Some (r, w') ->
    exists w1,
      (exists cs, r = Ok tt /\ poll cs after_poll w1 = (Ok false, w')) \/
      (exists e, r = Raise e /\
         (get_worker_connections shuffle attempt_connect w1 = (Raise e, w') \/
          exists cs, poll cs after_poll w1 = (Raise e, w'))).
Proof.
  induction fuel as [|fuel IH]; intros w r w' Hrun; [discriminate|].
  cbn [work_loop] in Hrun. py_unfold.
  destruct (get_worker_connections shuffle attempt_connect w)
    as [[cs|e] w1] eqn:Hget.
  - destruct (poll cs after_poll w1) as [[[|]|e] w2] eqn:Hpoll.
    + apply (IH w2 r w' Hrun).
    + injection Hrun as <- <-. exists w1. left. exists cs. auto.
    + injection Hrun as <- <-. exists w1. right. exists e.
      split; [reflexivity|]. right. exists cs. exact Hpoll.
  - injection Hrun as <- <-. exists w. right. exists e.
    split; [reflexivity|]. left. exact Hget.
Qed.

(** X17: the ways out of [work].  If [work] returns normally, some poll
    returned [False] and [work] hands back the worker exactly as that poll
    left it; if it raises, it raises what gathering the connections or a
    poll raised, again in the state they left.  [work] itself makes no call
    and no change after the loop. *)
Theorem work_ends_where_the_loop_ended
    (shuffle : list Connection -> list Connection)
    (attempt_connect : Connection -> Py unit)
    (poll_connections_until_stopped :
       list Connection -> (bool -> bool) -> Py bool)
    (fuel : nat) (w : GearmanWorker) (r : result unit) (w' : GearmanWorker) :
  work shuffle attempt_connect poll_connections_until_stopped fuel w
    = Some (r, w') ->
  exists w1,
    (exists cs, r = Ok tt /\
       poll_connections_until_stopped cs after_poll w1 = (Ok false, w')) \/
    (exists e, r = Raise e /\
       (get_worker_connections shuffle attempt_connect w1 = (Raise e, w') \/
        exists cs,
          poll_connections_until_stopped cs after_poll w1 = (Raise e, w'))).
Proof.
  rewrite work_is_work_loop. apply work_loop_exit.
Qed.

Lemma work_ends_where_the_loop_ended_witness :
  exists w1,
    (exists cs, Ok tt = Ok tt /\
       stop_at_once cs after_poll w1
         = (Ok false,
            with_randomized_connections (Some [1; 2]%positive) two_server_worker)) \/
    (exists e, Ok tt = Raise e /\
       (get_worker_connections keep_order no_reconnect w1
          = (Raise e,
             with_randomized_connections (Some [1; 2]%positive) two_server_worker) \/
        exists cs,
          stop_at_once cs after_poll w1
            = (Raise e,
               with_randomized_connections (Some [1; 2]%positive)
                 two_server_worker))).
Proof.
  apply (work_ends_where_the_loop_ended keep_order no_reconnect stop_at_once
           3 two_server_worker).
  reflexivity.
Defined.

(** X18: registering a task name again replaces its callback, the later
    registration alone deciding the ability table; and registering a name
    that was not registered and then unregistering it gives back the
    ability table there was before, the initial handler state listing its
    names again. *)
Theorem registration_replaces_and_undoes
    (t : string) (f g : Callback) (w : GearmanWorker) :
  worker_abilities (run_ability_calls [Register t f; Register t g] w)
    = worker_abilities (run_ability_calls [Register t g] w) /\
  worker_abilities (run_ability_calls [Register t f; Register t g] w) !! t
    = Some g /\
  (worker_abilities w !! t = None ->
   worker_abilities (run_ability_calls [Register t f; Unregister t] w)
     = worker_abilities w /\
   list_to_set
     (abilities (handler_initial_state
                   (run_ability_calls [Register t f; Unregister t] w)))
     =@{gset string} dom (worker_abilities w)).
Proof.
  unfold run_ability_calls. cbn [foldl].
  rewrite !ability_call_initial_state, !ability_call_abilities.
  split; [apply insert_insert_eq|]. split; [apply lookup_insert_eq|].
  intros Hnone. cbn [abilities]. rewrite keys_dom.
  rewrite (delete_insert_id _ _ _ Hnone).
  split; reflexivity.
Qed.
